(** * elasticstat: the node statistics engine of [elasticstat.py]

    A shallow embedding of class [ElasticStat]: role classification
    ([get_role]), the three counter stores ([get_gc_stats], [get_fd_stats],
    [get_http_conns]), the per-node record ([process_node]), the per-role
    pass ([process_role]) and the body of the polling loop ([printStats]).

    Conventions.
    - Python integers are [Z]; ["{0}".format(n)] on an integer is [pretty n].
    - Dictionaries are [gmap]s.  CPython 2 enumerates a dictionary or a set
      in hash order; that order is the parameter [iter_order] of the
      development, of which only "it is a permutation" is ever assumed.
    - An uncaught Python exception ends the program; functions that can
      raise return a [result].
    - The queue [node_results] is the list of the lines put on it.  A [put]
      that blocks on a full pipe is not part of the model: a result [Ok]
      stands for a cycle that ran to its end. *)

From stdpp Require Import base strings list gmap pretty.
From Stdlib Require Import ZArith Ascii.

(** ** Exceptions *)

Inductive exn := KeyError | ValueError | RuntimeError.

Inductive result (A : Type) :=
  | Ok (a : A)
  | Raise (e : exn).
Arguments Ok {A} a.
Arguments Raise {A} e.

Definition rbind {A B} (m : result A) (k : A → result B) : result B :=
  match m with
  | Ok a => k a
  | Raise e => Raise e
  end.

Notation "x ←ᵣ m ; k" := (rbind m (λ x, k))
  (at level 20, m at level 100, k at level 200, only parsing).
Notation "' p ←ᵣ m ; k" := (rbind m (λ x, match x with p => k end))
  (at level 20, p pattern, m at level 100, k at level 200, only parsing).

Definition of_option {A} (e : exn) (o : option A) : result A :=
  match o with
  | Some a => Ok a
  | None => Raise e
  end.

(** ** Text formatting ([str.format] with a width) *)

Fixpoint spaces (n : nat) : string :=
  match n with
  | O => ""
  | S n' => " " +:+ spaces n'
  end.

(** [{x:<w}], and [{x:w}] on a string. *)
Definition ljust (w : nat) (s : string) : string :=
  s +:+ spaces (w - String.length s).

(** [{x:>w}]. *)
Definition rjust (w : nat) (s : string) : string :=
  spaces (w - String.length s) +:+ s.

(** [{x:^w}]: the left margin gets the smaller half. *)
Definition center (w : nat) (s : string) : string :=
  let pad := w - String.length s in
  spaces (pad / 2) +:+ s +:+ spaces (pad - pad / 2).

(** ["sep".join(l)]. *)
Fixpoint join (sep : string) (l : list string) : string :=
  match l with
  | [] => ""
  | [s] => s
  | s :: l' => s +:+ sep +:+ join sep l'
  end.

(** ** Roles *)

(** The five strings [get_role] can return. *)
Inductive role := ALL | MST | DATA | RTR | UNK.

Definition role_str (r : role) : string :=
  match r with
  | ALL => "ALL"
  | MST => "MST"
  | DATA => "DATA"
  | RTR => "RTR"
  | UNK => "UNK"
  end.

Global Instance role_eq_dec : EqDecision role.
Proof. solve_decision. Defined.

Global Instance role_countable : Countable role.
Proof.
  refine (inj_countable'
    (λ r, match r with ALL => 0 | MST => 1 | DATA => 2 | RTR => 3 | UNK => 4 end)
    (λ n, match n with 0 => ALL | 1 => MST | 2 => DATA | 3 => RTR | _ => UNK end)
    _).
  by intros [].
Defined.

Definition all_roles : list role := [ALL; MST; DATA; RTR; UNK].

Definition get_role (attributes : gmap string string) : role :=
  let ismaster := "true" in
  let isdata := "true" in
  let isdata := match attributes !! "data" with Some v => v | None => isdata end in
  let ismaster := match attributes !! "master" with Some v => v | None => ismaster end in
  if bool_decide (ismaster = "true") && bool_decide (isdata = "true") then ALL
  else if bool_decide (ismaster = "true") && bool_decide (isdata = "false") then MST
  else if bool_decide (ismaster = "false") && bool_decide (isdata = "true") then DATA
  else if bool_decide (ismaster = "false") && bool_decide (isdata = "false") then RTR
  else UNK.

(** ** The snapshot of one node ([nodes_stats['nodes'][node_id]]) *)

Definition node_id := string.

(** [node['jvm']['gc']['collectors'][generation]]. *)
Record collector := {
  collection_count : Z;
  collection_time_in_millis : Z
}.

Record collectors := {
  old : collector;
  young : collector
}.

Inductive pool := index | search | bulk | get | merge.

Definition THREAD_POOLS : list pool := [index; search; bulk; get; merge].

(** [node['thread_pool'][pool]]. *)
Record pool_stats := {
  active : Z;
  queue : Z;
  rejected : Z
}.

(** [node['http']]. *)
Record http_stats := {
  current_open : Z;
  total_opened : Z
}.

(** The fields of a node's statistics that [process_node] and [process_role]
    read.  The statistics are requested with [human=True], so sizes and
    durations arrive as text; each entry of [os_load_average] stands for
    [str(x)] of the reported number. *)
Record node := {
  name : string;
  attributes : gmap string string;
  os_load_average : list string;
  os_mem_used_percent : Z;
  jvm_mem_heap_used_percent : Z;
  jvm_mem_pools_old_used : string;
  jvm_gc_collectors : collectors;
  thread_pool : pool → pool_stats;
  indices_fielddata_evictions : Z;
  breakers_fielddata_tripped : Z;
  http : http_stats;
  transport_server_open : Z;
  indices_merges_total_time : string;
  indices_store_throttle_time : string;
  indices_docs_count : Z;
  indices_docs_deleted : Z
}.

(** ** The engine's state ([self]) *)

(** [self.node_counters['gc'][node_name]]. *)
Record gc_counter := {
  gc_old : Z;
  gc_young : Z
}.

(** [self.node_counters['fd'][node_name]]. *)
Record fd_counter := {
  fde : Z;
  fdt : Z
}.

Record ElasticStat := {
  node_counters_gc : gmap string gc_counter;
  node_counters_fd : gmap string fd_counter;
  node_counters_hconn : gmap string Z;
  nodes_list : list node_id;
  nodes_by_role : gmap role (list node_id);
  node_names : gmap node_id string;
  new_nodes : list node_id;
  active_master : string
}.

(** The state built by [__init__]. *)
Definition init : ElasticStat := {|
  node_counters_gc := ∅;
  node_counters_fd := ∅;
  node_counters_hconn := ∅;
  nodes_list := [];
  nodes_by_role := ∅;
  node_names := ∅;
  new_nodes := [];
  active_master := ""
|}.

Definition set_gc (f : gmap string gc_counter → gmap string gc_counter)
    (self : ElasticStat) : ElasticStat :=
  {| node_counters_gc := f (node_counters_gc self);
     node_counters_fd := node_counters_fd self;
     node_counters_hconn := node_counters_hconn self;
     nodes_list := nodes_list self;
     nodes_by_role := nodes_by_role self;
     node_names := node_names self;
     new_nodes := new_nodes self;
     active_master := active_master self |}.

Definition set_fd (f : gmap string fd_counter → gmap string fd_counter)
    (self : ElasticStat) : ElasticStat :=
  {| node_counters_gc := node_counters_gc self;
     node_counters_fd := f (node_counters_fd self);
     node_counters_hconn := node_counters_hconn self;
     nodes_list := nodes_list self;
     nodes_by_role := nodes_by_role self;
     node_names := node_names self;
     new_nodes := new_nodes self;
     active_master := active_master self |}.

Definition set_hconn (f : gmap string Z → gmap string Z)
    (self : ElasticStat) : ElasticStat :=
  {| node_counters_gc := node_counters_gc self;
     node_counters_fd := node_counters_fd self;
     node_counters_hconn := f (node_counters_hconn self);
     nodes_list := nodes_list self;
     nodes_by_role := nodes_by_role self;
     node_names := node_names self;
     new_nodes := new_nodes self;
     active_master := active_master self |}.

Definition set_nodes_list (f : list node_id → list node_id)
    (self : ElasticStat) : ElasticStat :=
  {| node_counters_gc := node_counters_gc self;
     node_counters_fd := node_counters_fd self;
     node_counters_hconn := node_counters_hconn self;
     nodes_list := f (nodes_list self);
     nodes_by_role := nodes_by_role self;
     node_names := node_names self;
     new_nodes := new_nodes self;
     active_master := active_master self |}.

Definition set_nodes_by_role
    (f : gmap role (list node_id) → gmap role (list node_id))
    (self : ElasticStat) : ElasticStat :=
  {| node_counters_gc := node_counters_gc self;
     node_counters_fd := node_counters_fd self;
     node_counters_hconn := node_counters_hconn self;
     nodes_list := nodes_list self;
     nodes_by_role := f (nodes_by_role self);
     node_names := node_names self;
     new_nodes := new_nodes self;
     active_master := active_master self |}.

Definition set_node_names (f : gmap node_id string → gmap node_id string)
    (self : ElasticStat) : ElasticStat :=
  {| node_counters_gc := node_counters_gc self;
     node_counters_fd := node_counters_fd self;
     node_counters_hconn := node_counters_hconn self;
     nodes_list := nodes_list self;
     nodes_by_role := nodes_by_role self;
     node_names := f (node_names self);
     new_nodes := new_nodes self;
     active_master := active_master self |}.

Definition set_new_nodes (l : list node_id) (self : ElasticStat) : ElasticStat :=
  {| node_counters_gc := node_counters_gc self;
     node_counters_fd := node_counters_fd self;
     node_counters_hconn := node_counters_hconn self;
     nodes_list := nodes_list self;
     nodes_by_role := nodes_by_role self;
     node_names := node_names self;
     new_nodes := l;
     active_master := active_master self |}.

Definition set_active_master (m : string) (self : ElasticStat) : ElasticStat :=
  {| node_counters_gc := node_counters_gc self;
     node_counters_fd := node_counters_fd self;
     node_counters_hconn := node_counters_hconn self;
     nodes_list := nodes_list self;
     nodes_by_role := nodes_by_role self;
     node_names := node_names self;
     new_nodes := new_nodes self;
     active_master := m |}.

(** ** The counter stores *)

(** ["{0}|{0}ms".format(delta, time)]: both fields are argument 0. *)
Definition gc_results (delta time : Z) : string :=
  pretty delta +:+ "|" +:+ pretty delta +:+ "ms".

Definition get_gc_stats (self : ElasticStat) (node_name : string)
    (node_gc_stats : collectors) : ElasticStat * (string * string) :=
  match node_counters_gc self !! node_name with
  | None =>
      let self := set_gc <[node_name := {| gc_old := 0; gc_young := 0 |}]> self in
      let self := set_gc (alter (λ c, {| gc_old := collection_count (old node_gc_stats);
                                         gc_young := gc_young c |}) node_name) self in
      let self := set_gc (alter (λ c, {| gc_old := gc_old c;
                                         gc_young := collection_count (young node_gc_stats) |})
                                node_name) self in
      (self, ("-|-", "-|-"))
  | Some c =>
      let old_gc_count := collection_count (old node_gc_stats) in
      let young_gc_count := collection_count (young node_gc_stats) in
      let old_gc_delta := (old_gc_count - gc_old c)%Z in
      let young_gc_delta := (young_gc_count - gc_young c)%Z in
      let self := set_gc (alter (λ c, {| gc_old := old_gc_count;
                                         gc_young := gc_young c |}) node_name) self in
      let self := set_gc (alter (λ c, {| gc_old := gc_old c;
                                         gc_young := young_gc_count |}) node_name) self in
      let old_gc_results :=
        gc_results old_gc_delta (collection_time_in_millis (old node_gc_stats)) in
      let young_gc_results :=
        gc_results young_gc_delta (collection_time_in_millis (young node_gc_stats)) in
      (self, (old_gc_results, young_gc_results))
  end.

Definition get_fd_stats (self : ElasticStat) (node_name : string)
    (current_evictions current_tripped : Z) : ElasticStat * string :=
  match node_counters_fd self !! node_name with
  | None =>
      let self := set_fd <[node_name := {| fde := 0; fdt := 0 |}]> self in
      let self := set_fd (alter (λ c, {| fde := current_evictions; fdt := fdt c |})
                                node_name) self in
      let self := set_fd (alter (λ c, {| fde := fde c; fdt := current_tripped |})
                                node_name) self in
      (self, "-|-")
  | Some c =>
      let fde_delta := (current_evictions - fde c)%Z in
      let self := set_fd (alter (λ c, {| fde := current_evictions; fdt := fdt c |})
                                node_name) self in
      let fdt_delta := (current_tripped - fdt c)%Z in
      let self := set_fd (alter (λ c, {| fde := fde c; fdt := current_tripped |})
                                node_name) self in
      (self, pretty fde_delta +:+ "|" +:+ pretty fdt_delta)
  end.

Definition get_http_conns (self : ElasticStat) (node_name : string)
    (http_conns : http_stats) : ElasticStat * string :=
  match node_counters_hconn self !! node_name with
  | None =>
      let self := set_hconn <[node_name := total_opened http_conns]> self in
      (self, pretty (current_open http_conns) +:+ "|-")
  | Some stored =>
      let open_delta := (total_opened http_conns - stored)%Z in
      let self := set_hconn <[node_name := total_opened http_conns]> self in
      (self, pretty (current_open http_conns) +:+ "|" +:+ pretty open_delta)
  end.

(** ** One node's line ([process_node]) *)

(** The dictionary [processed_node], one field per key.  The five
    [<pool>_threads] keys are the field [threads]. *)
Module Processed.
Record t := {
  name : string;
  role : string;
  load_avg : string;
  used_mem : string;
  used_heap : string;
  old_gc_sz : string;
  old_gc : string;
  young_gc : string;
  threads : pool → string;
  fielddata : string;
  http_conn : string;
  transport_conn : Z;
  merge_time : string;
  store_throttle : string;
  docs : string
}.
End Processed.

(** [NODES_TEMPLATE.format] on the keys of [processed_node]. *)
Definition NODES_TEMPLATE (p : Processed.t) : string :=
  ljust 24 (Processed.name p) +:+ " " +:+
  ljust 6 (Processed.role p) +:+ " " +:+
  rjust 18 (Processed.load_avg p) +:+ "   " +:+
  rjust 4 (Processed.used_mem p) +:+ " " +:+
  rjust 4 (Processed.used_heap p) +:+ "  " +:+
  ljust 8 (Processed.old_gc_sz p) +:+ " " +:+
  ljust 8 (Processed.old_gc p) +:+ " " +:+
  ljust 8 (Processed.young_gc p) +:+ "   " +:+
  ljust 8 (Processed.threads p index) +:+ " " +:+
  ljust 8 (Processed.threads p search) +:+ " " +:+
  ljust 8 (Processed.threads p bulk) +:+ " " +:+
  ljust 8 (Processed.threads p get) +:+ " " +:+
  ljust 8 (Processed.threads p merge) +:+ " " +:+
  center 7 (Processed.fielddata p) +:+ "   " +:+
  rjust 6 (Processed.http_conn p) +:+ " " +:+
  rjust 6 (pretty (Processed.transport_conn p)) +:+ "   " +:+
  rjust 8 (Processed.merge_time p) +:+ " " +:+
  rjust 8 (Processed.store_throttle p) +:+ "  " +:+
  Processed.docs p.

(** [NODES_FAILED_TEMPLATE.format] on the keys of [failed_node]. *)
Definition NODES_FAILED_TEMPLATE (name role : string) : string :=
  ljust 24 name +:+ " " +:+ ljust 6 role +:+
  " (No data received, node may have left cluster)".

(** [process_node] up to its [return]: the new state and the dictionary
    [processed_node]. *)
Definition process_node_dict (self : ElasticStat) (role : role) (node : node)
    : ElasticStat * Processed.t :=
  let p_name := name node in
  let p_role := role_str role in
  let p_role :=
    if bool_decide (p_name = active_master self) then p_role +:+ "*" else p_role in
  let load_avg := join "/" (os_load_average node) in
  let used_mem := pretty (os_mem_used_percent node) +:+ "%" in
  let used_heap := pretty (jvm_mem_heap_used_percent node) +:+ "%" in
  let old_gc_sz := jvm_mem_pools_old_used node in
  let node_gc_stats := jvm_gc_collectors node in
  let '(self, (old_gc, young_gc)) := get_gc_stats self p_name node_gc_stats in
  let threads := λ pool,
    pretty (active (thread_pool node pool)) +:+ "|" +:+
    pretty (queue (thread_pool node pool)) +:+ "|" +:+
    pretty (rejected (thread_pool node pool)) in
  let '(self, fielddata) :=
    get_fd_stats self p_name (indices_fielddata_evictions node)
                 (breakers_fielddata_tripped node) in
  let '(self, http_conn) := get_http_conns self p_name (http node) in
  let transport_conn := transport_server_open node in
  let '(merge_time, store_throttle, docs) :=
    match role with
    | DATA | ALL =>
        (indices_merges_total_time node,
         indices_store_throttle_time node,
         pretty (indices_docs_count node) +:+ "|" +:+ pretty (indices_docs_deleted node))
    | _ => ("-", "-", "-|-")
    end in
  (self,
   {| Processed.name := p_name;
      Processed.role := p_role;
      Processed.load_avg := load_avg;
      Processed.used_mem := used_mem;
      Processed.used_heap := used_heap;
      Processed.old_gc_sz := old_gc_sz;
      Processed.old_gc := old_gc;
      Processed.young_gc := young_gc;
      Processed.threads := threads;
      Processed.fielddata := fielddata;
      Processed.http_conn := http_conn;
      Processed.transport_conn := transport_conn;
      Processed.merge_time := merge_time;
      Processed.store_throttle := store_throttle;
      Processed.docs := docs |}).

Definition process_node (self : ElasticStat) (role : role) (node : node)
    : ElasticStat * string :=
  let '(self, processed_node) := process_node_dict self role node in
  (self, NODES_TEMPLATE processed_node).

(** ** One role's pass ([process_role]) *)

(** [l.remove(x)]: drops the first [x]; [ValueError] when there is none. *)
Fixpoint list_remove (x : node_id) (l : list node_id) : option (list node_id) :=
  match l with
  | [] => None
  | y :: l' => if decide (y = x) then Some l' else (y ::.) <$> list_remove x l'
  end.

(** [self.nodes_by_role.setdefault(r, []).append(x)]. *)
Definition setdefault_append (r : role) (x : node_id) (self : ElasticStat)
    : ElasticStat :=
  set_nodes_by_role (λ m, <[r := default [] (m !! r) ++ [x]]> m) self.

(** [self.nodes_by_role[r].remove(x)]. *)
Definition bucket_remove (r : role) (x : node_id) (self : ElasticStat)
    : result ElasticStat :=
  l ←ᵣ of_option KeyError (nodes_by_role self !! r);
  l' ←ᵣ of_option ValueError (list_remove x l);
  Ok (set_nodes_by_role <[r := l']> self).

(** A line put on the queue [node_results].  The queue holds the text; the
    id of the node the line was produced for is kept beside it, so that the
    lines of a cycle can be counted per node. *)
Definition row : Type := node_id * string.

(** The body of the loop of [process_role], for the element [node_id] of the
    bucket of [role]. *)
Definition process_role_body (role : role) (nodes_stats : gmap node_id node)
    (node_id : node_id) (self : ElasticStat) (node_results : list row)
    : result (ElasticStat * list row) :=
  match nodes_stats !! node_id with
  | None =>
      failed_name ←ᵣ of_option KeyError (node_names self !! node_id);
      let failed_role := "(" +:+ role_str role +:+ ")" in
      Ok (self, node_results ++ [(node_id, NODES_FAILED_TEMPLATE failed_name failed_role)])
  | Some node =>
      let current_role := get_role (attributes node) in
      self ←ᵣ (if decide (current_role ≠ role) then
                 bucket_remove role node_id (setdefault_append current_role node_id self)
               else Ok self);
      let '(self, line) := process_node self current_role node in
      Ok (self, node_results ++ [(node_id, line)])
  end.

(** [for node_id in self.nodes_by_role[role]: ...].  The list iterator keeps
    an index [i] into the list object, which the body may shorten: each round
    reads the bucket as it is now.  [fuel] bounds the number of rounds. *)
Fixpoint process_role_loop (fuel i : nat) (role : role)
    (nodes_stats : gmap node_id node) (self : ElasticStat)
    (node_results : list row) : result (ElasticStat * list row) :=
  match fuel with
  | O => Ok (self, node_results)
  | S fuel' =>
      match nodes_by_role self !! role ≫= (.!! i) with
      | None => Ok (self, node_results)
      | Some node_id =>
          '(self, node_results) ←ᵣ
            process_role_body role nodes_stats node_id self node_results;
          process_role_loop fuel' (S i) role nodes_stats self node_results
      end
  end.

(** The bucket never grows during its own pass, so its length at entry is
    fuel enough (lemma [process_role_loop_fuel]). *)
Definition process_role (role : role) (nodes_stats : gmap node_id node)
    (self : ElasticStat) (node_results : list row)
    : result (ElasticStat * list row) :=
  l ←ᵣ of_option KeyError (nodes_by_role self !! role);
  process_role_loop (length l) 0 role nodes_stats self node_results.

(** ** One polling cycle (the body of the loop of [printStats]) *)

Section cycle.
(** The order in which CPython enumerates a dictionary's keys or a set's
    elements, given the elements. *)
Context (iter_order : ∀ A : Type, list A → list A).

(** The registration of a node, as written twice in [printStats]. *)
Definition register (nodes_stats : gmap node_id node) (self : ElasticStat)
    (node_id : node_id) : result ElasticStat :=
  let self := set_nodes_list (λ l, l ++ [node_id]) self in
  node ←ᵣ of_option KeyError (nodes_stats !! node_id);
  let self := set_node_names <[node_id := name node]> self in
  let node_role := get_role (attributes node) in
  Ok (setdefault_append node_role node_id self).

Fixpoint register_all (nodes_stats : gmap node_id node) (ids : list node_id)
    (self : ElasticStat) : result ElasticStat :=
  match ids with
  | [] => Ok self
  | node_id :: ids' =>
      self ←ᵣ register nodes_stats self node_id;
      register_all nodes_stats ids' self
  end.

(** [for role in self.nodes_by_role: self.process_role(...)], over the keys
    [roles] still to come.  The dictionary iterator compares the size of
    the dictionary with the size [used] it had when the loop began, each
    time it is asked for a key and before it looks whether one is left. *)
Fixpoint process_roles (used : nat) (roles : list role)
    (nodes_stats : gmap node_id node) (self : ElasticStat)
    (node_results : list row) : result (ElasticStat * list row) :=
  if decide (size (nodes_by_role self) ≠ used) then Raise RuntimeError
  else
    match roles with
    | [] => Ok (self, node_results)
    | role :: roles' =>
        '(self, node_results) ←ᵣ process_role role nodes_stats self node_results;
        process_roles used roles' nodes_stats self node_results
    end.

(** One round of [while True], from the answers of the cluster
    ([nodes_stats['nodes']] and the name of the elected master) to the
    lines printed under the node headings.  The queue is empty when a
    round begins, since the previous round drained it. *)
Definition printStats_cycle (self : ElasticStat)
    (nodes_stats : gmap node_id node) (master : string)
    : result (ElasticStat * list row) :=
  let self := set_active_master master self in
  let current_nodes_count := length (nodes_list self) in
  self ←ᵣ
    (if decide (current_nodes_count = 0) then
       register_all nodes_stats (iter_order _ (elements (dom nodes_stats))) self
     else
       let self := set_new_nodes [] self in
       if decide (current_nodes_count < size nodes_stats) then
         let self :=
           set_new_nodes
             (iter_order _ (elements (dom nodes_stats ∖ list_to_set (nodes_list self))))
             self in
         register_all nodes_stats (new_nodes self) self
       else Ok self);
  process_roles (size (nodes_by_role self))
                (iter_order _ (elements (dom (nodes_by_role self))))
                nodes_stats self [].

(** The loop itself, over the answers of the first rounds; the lines of
    each round are collected in order. *)
Fixpoint printStats (self : ElasticStat)
    (rounds : list (gmap node_id node * string))
    : result (ElasticStat * list (list row)) :=
  match rounds with
  | [] => Ok (self, [])
  | (nodes_stats, master) :: rounds' =>
      '(self, lines) ←ᵣ printStats_cycle self nodes_stats master;
      '(self, rest) ←ᵣ printStats self rounds';
      Ok (self, lines :: rest)
  end.
End cycle.

(** The state after [process_node]: the three stores, each written under the
    node's name, and nothing else. *)
Definition counted (self : ElasticStat) (n : node) : ElasticStat :=
  set_hconn <[name n := total_opened (http n)]>
    (set_fd <[name n := {| fde := indices_fielddata_evictions n;
                           fdt := breakers_fielddata_tripped n |}]>
       (set_gc <[name n := {| gc_old := collection_count (old (jvm_gc_collectors n));
                              gc_young := collection_count (young (jvm_gc_collectors n)) |}]>
          self)).

(** ** Reading the topology and the output *)

(** The bucket of a role; a role that is no key has no node. *)
Definition bucket (self : ElasticStat) (r : role) : list node_id :=
  default [] (nodes_by_role self !! r).

(** All the buckets, one after the other. *)
Definition all_buckets (self : ElasticStat) : list node_id :=
  all_roles ≫= bucket self.

(** The number of places a node id takes in the buckets. *)
Definition occurrences (self : ElasticStat) (x : node_id) : nat :=
  length (filter (x =.) (all_buckets self)).

(** The number of lines a cycle put on the queue for a node id. *)
Definition emitted (x : node_id) (lines : list row) : nat :=
  length (filter (x =.) lines.*1).

(** The topology is in order when the buckets together hold the known nodes,
    each once, and a name is recorded for exactly the known nodes. *)
Definition topology_ok (self : ElasticStat) : Prop :=
  all_buckets self ≡ₚ nodes_list self ∧
  NoDup (nodes_list self) ∧
  ∀ x, x ∈ nodes_list self ↔ is_Some (node_names self !! x).

(** ** Sample clusters *)

Module Example.
(** An enumeration order: the elements as the map hands them out. *)
Definition order : ∀ A : Type, list A → list A := λ _ l, l.

(** A data-only node, a master-and-data node, a client node. *)
Definition attrs_data : gmap string string := {[ "master" := "false" ]}.
Definition attrs_all : gmap string string := ∅.
Definition attrs_router : gmap string string :=
  <[ "data" := "false" ]> {[ "master" := "false" ]}.

(** A node with the given name, attributes and old-generation collection
    count; the other figures are the same for every sample node. *)
Definition a_node (name : string) (attributes : gmap string string)
    (old_count : Z) : node :=
  {| name := name;
     attributes := attributes;
     os_load_average := ["0.5"; "0.25"; "0.1"];
     os_mem_used_percent := 40;
     jvm_mem_heap_used_percent := 55;
     jvm_mem_pools_old_used := "1.2gb";
     jvm_gc_collectors :=
       {| old := {| collection_count := old_count;
                    collection_time_in_millis := 900 |};
          young := {| collection_count := 20;
                      collection_time_in_millis := 70 |} |};
     thread_pool := λ _, {| active := 1; queue := 2; rejected := 0 |};
     indices_fielddata_evictions := 0;
     breakers_fielddata_tripped := 0;
     http := {| current_open := 3; total_opened := 10 |};
     transport_server_open := 13;
     indices_merges_total_time := "1.5s";
     indices_store_throttle_time := "0s";
     indices_docs_count := 100;
     indices_docs_deleted := 4 |}.

(** The line of a sample node that holds data, from the columns that vary. *)
Definition a_line (name role old_gc young_gc fielddata http_conn : string) : string :=
  NODES_TEMPLATE
    {| Processed.name := name;
       Processed.role := role;
       Processed.load_avg := "0.5/0.25/0.1";
       Processed.used_mem := "40%";
       Processed.used_heap := "55%";
       Processed.old_gc_sz := "1.2gb";
       Processed.old_gc := old_gc;
       Processed.young_gc := young_gc;
       Processed.threads := λ _, "1|2|0";
       Processed.fielddata := fielddata;
       Processed.http_conn := http_conn;
       Processed.transport_conn := 13;
       Processed.merge_time := "1.5s";
       Processed.store_throttle := "0s";
       Processed.docs := "100|4" |}.

(** Node n2 leaves while node n3 joins. *)
Definition join_while_leave : list (gmap node_id node * string) :=
  [ (<[ "n1" := a_node "one" attrs_data 5 ]> {[ "n2" := a_node "two" attrs_data 5 ]},
     "one");
    (<[ "n1" := a_node "one" attrs_data 5 ]> {[ "n3" := a_node "three" attrs_data 5 ]},
     "one") ].

(** Nodes a (data) and c (master and data); then b (data) joins; then a
    becomes master-eligible while b stays as it is. *)
Definition role_change_before_present : list (gmap node_id node * string) :=
  [ (<[ "a" := a_node "alpha" attrs_data 5 ]> {[ "c" := a_node "gamma" attrs_all 5 ]},
     "gamma");
    (<[ "a" := a_node "alpha" attrs_data 5 ]>
       (<[ "b" := a_node "beta" attrs_data 5 ]> {[ "c" := a_node "gamma" attrs_all 5 ]}),
     "gamma");
    (<[ "a" := a_node "alpha" attrs_all 5 ]>
       (<[ "b" := a_node "beta" attrs_data 5 ]> {[ "c" := a_node "gamma" attrs_all 5 ]}),
     "gamma") ].

(** The same, but in the third round b is gone. *)
Definition role_change_before_absent : list (gmap node_id node * string) :=
  [ (<[ "a" := a_node "alpha" attrs_data 5 ]> {[ "c" := a_node "gamma" attrs_all 5 ]},
     "gamma");
    (<[ "a" := a_node "alpha" attrs_data 5 ]>
       (<[ "b" := a_node "beta" attrs_data 5 ]> {[ "c" := a_node "gamma" attrs_all 5 ]}),
     "gamma");
    (<[ "a" := a_node "alpha" attrs_all 5 ]> {[ "c" := a_node "gamma" attrs_all 5 ]},
     "gamma") ].

(** A single data node n4 that becomes master-eligible. *)
Definition role_change_new_bucket : list (gmap node_id node * string) :=
  [ ({[ "n4" := a_node "four" attrs_data 5 ]}, "other");
    ({[ "n4" := a_node "four" attrs_all 7 ]}, "other") ].

(** The same change in a cluster that already has a master-and-data node. *)
Definition role_change_known_bucket : list (gmap node_id node * string) :=
  [ (<[ "n4" := a_node "four" attrs_data 5 ]> {[ "n5" := a_node "five" attrs_all 5 ]},
     "five");
    (<[ "n4" := a_node "four" attrs_all 7 ]> {[ "n5" := a_node "five" attrs_all 5 ]},
     "five");
    (<[ "n4" := a_node "four" attrs_all 7 ]> {[ "n5" := a_node "five" attrs_all 5 ]},
     "five") ].

(** A node whose name changes from one round to the next. *)
Definition renamed : list (gmap node_id node * string) :=
  [ ({[ "A" := a_node "n" attrs_data 5 ]}, "other");
    ({[ "A" := a_node "m" attrs_data 9 ]}, "other") ].

(** A second node joins under the name of the first. *)
Definition same_name : list (gmap node_id node * string) :=
  [ ({[ "A" := a_node "n" attrs_data 5 ]}, "other");
    (<[ "A" := a_node "n" attrs_data 5 ]> {[ "B" := a_node "n" attrs_data 9 ]},
     "other") ].

(** Node n2 is away in the second round and back in the third. *)
Definition leave_and_return : list (gmap node_id node * string) :=
  [ (<[ "n1" := a_node "one" attrs_data 5 ]> {[ "n2" := a_node "two" attrs_data 5 ]},
     "one");
    ({[ "n1" := a_node "one" attrs_data 7 ]}, "one");
    (<[ "n1" := a_node "one" attrs_data 7 ]> {[ "n2" := a_node "two" attrs_data 8 ]},
     "one") ].
End Example.

(** The buckets agree with a snapshot when every node of a bucket that is in
    the snapshot is classified there under the role of its bucket. *)
Definition settled (self : ElasticStat) (nodes_stats : gmap node_id node) : Prop :=
  ∀ r x n, x ∈ bucket self r → nodes_stats !! x = Some n →
    get_role (attributes n) = r.

(** The line for a node that is not in the snapshot. *)
Definition failed_line (self : ElasticStat) (r : role) (x : node_id) : option row :=
  (λ failed_name, (x, NODES_FAILED_TEMPLATE failed_name ("(" +:+ role_str r +:+ ")")))
    <$> node_names self !! x.

(** What a line says of its node: for a node of the snapshot it is the line
    [process_node] makes of the node's entry under the role its attributes
    give, with [master] the elected master; for a node that is not in the
    snapshot it is the line that reports the node as gone under the name
    [names] holds. *)
Definition shows (names : gmap node_id string) (master : string)
    (nodes_stats : gmap node_id node) (r : row) : Prop :=
  match nodes_stats !! r.1 with
  | Some n =>
      ∃ s, active_master s = master ∧
        r.2 = (process_node s (get_role (attributes n)) n).2
  | None =>
      ∃ failed_name role, names !! r.1 = Some failed_name ∧
        r.2 = NODES_FAILED_TEMPLATE failed_name ("(" +:+ role_str role +:+ ")")
  end.

(** ** States and snapshots of the sample runs *)

Module Sample.
(** The state a run ends in ([init] if it raises). *)
Definition after (rounds : list (gmap node_id node * string)) : ElasticStat :=
  match printStats Example.order init rounds with
  | Ok (self, _) => self
  | Raise _ => init
  end.

(** The snapshot of round [i] of a run (the empty one past its end). *)
Definition snapshot (rounds : list (gmap node_id node * string)) (i : nat)
    : gmap node_id node :=
  default ∅ (fst <$> rounds !! i).

(** Nodes a and b in the DATA bucket, in this order, and c in ALL. *)
Definition tracked : ElasticStat := after (take 2 Example.role_change_before_present).

(** The snapshot in which a has become master-eligible. *)
Definition a_changed : gmap node_id node :=
  snapshot Example.role_change_before_present 2.

(** Nodes a and c known; then b joins. *)
Definition two_known : ElasticStat := after (take 1 Example.role_change_before_present).
Definition b_joins : gmap node_id node :=
  snapshot Example.role_change_before_present 1.

(** The single data node n4, and the snapshot in which it is master-eligible. *)
Definition lone : ElasticStat := after (take 1 Example.role_change_new_bucket).
Definition lone_changed : gmap node_id node :=
  snapshot Example.role_change_new_bucket 1.

(** Nodes n1 and n2 known; then n2 is away. *)
Definition one_two : ElasticStat := after (take 1 Example.leave_and_return).
Definition two_away : gmap node_id node := snapshot Example.leave_and_return 1.
End Sample.

(** ** The constructor and the command line *)

(** The values the parameters of the constructor are given: [None], a
    string, an integer or a boolean. *)
Inductive pyval := PNone | PStr (s : string) | PInt (z : Z) | PBool (b : bool).

Global Instance pyval_eq_dec : EqDecision pyval.
Proof. solve_decision. Defined.

(** [c in s] for a string [c] of one character. *)
Fixpoint contains (c : ascii) (s : string) : bool :=
  match s with
  | "" => false
  | String a s' => bool_decide (a = c) || contains c s'
  end.

(** [s.split(c)] for a string [c] of one character. *)
Fixpoint split (c : ascii) (s : string) : list string :=
  match s with
  | "" => [""]
  | String a s' =>
      if bool_decide (a = c) then "" :: split c s'
      else match split c s' with
           | [] => [String a ""]
           | w :: ws => String a w :: ws
           end
  end.

(** The dictionary [host_dict]; the key ['http_auth'] is there or not. *)
Module HostDict.
Record t := {
  host : string;
  port : pyval;
  http_auth : option (pyval * pyval)
}.
End HostDict.

(** The object [__init__] leaves: the engine's state, the two attributes
    the loop never reads, and the dictionary the client is made from. *)
Record Constructed := {
  engine : ElasticStat;
  sleep_interval : pyval;
  local_time : pyval;
  es_client : HostDict.t
}.

Definition __init__ (host : string)
    (port username password check_interval local_time : pyval)
    : result Constructed :=
  '(host, port) ←ᵣ
    (if contains ":" host then
       match split ":" host with
       | [host; port] => Ok (host, PStr port)
       | _ => Raise ValueError
       end
     else Ok (host, port));
  let host_dict :=
    {| HostDict.host := host; HostDict.port := port; HostDict.http_auth := None |} in
  let host_dict :=
    if bool_decide (username ≠ PNone)
    then {| HostDict.host := HostDict.host host_dict;
            HostDict.port := HostDict.port host_dict;
            HostDict.http_auth := Some (username, password) |}
    else host_dict in
  Ok {| engine := init;
        sleep_interval := check_interval;
        local_time := local_time;
        es_client := host_dict |}.

(** The namespace [parser.parse_args()] returns. *)
Module Args.
Record t := {
  hostlist : string;
  port : pyval;
  username : option string;
  password : option string;
  check_interval : Z;
  local_time : bool
}.
End Args.

(** [None] or the string of an option that was given. *)
Definition optional (o : option string) : pyval :=
  match o with
  | Some s => PStr s
  | None => PNone
  end.

(** [main] up to the call of [printStats]: the object it constructs.  The
    five arguments are positional, and the sixth parameter keeps its
    default. *)
Definition main (args : Args.t) : result Constructed :=
  __init__ (Args.hostlist args) (optional (Args.username args))
    (optional (Args.password args)) (PInt (Args.check_interval args))
    (PBool (Args.local_time args)) (PBool false).

(** The number of characters [c] in [s]. *)
Fixpoint count_char (c : ascii) (s : string) : nat :=
  match s with
  | "" => 0
  | String a s' => (if bool_decide (a = c) then 1 else 0) + count_char c s'
  end.

(** * Properties *)

(** ** Rendered integers *)

Lemma string_length_app (s1 s2 : string) :
  String.length (s1 +:+ s2) = String.length s1 + String.length s2.
Proof.
  induction s1 as [|a s1 IH]; [done|].
  change (String a s1 +:+ s2) with (String a (s1 +:+ s2)). simpl. by rewrite IH.
Qed.

Lemma pretty_N_go_length (x : N) (s : string) :
  String.length s ≤ String.length (pretty_N_go x s).
Proof.
  revert s. induction (N.lt_wf_0 x) as [x _ IH]; intros s.
  destruct (decide (x = 0)%N) as [->|Hx]; [by rewrite pretty_N_go_0|].
  rewrite pretty_N_go_step by lia.
  etrans; [|apply IH; apply N.div_lt; lia]. simpl. lia.
Qed.

Lemma pretty_N_length (x : N) : 1 ≤ String.length (pretty x).
Proof.
  unfold pretty, pretty_N. case_decide; [done|].
  rewrite pretty_N_go_step by lia.
  etrans; [|apply pretty_N_go_length]. done.
Qed.

Lemma pretty_Z_length (z : Z) : 1 ≤ String.length (pretty z).
Proof.
  destruct z as [|p|p]; unfold pretty, pretty_Z; [done|apply pretty_N_length|].
  rewrite string_length_app. cbn. lia.
Qed.

Lemma pretty_Z_ne_dash (z : Z) : pretty z ≠ "-".
Proof.
  destruct z as [|p|p]; unfold pretty, pretty_Z; [done| |].
  - unfold pretty, pretty_positive, pretty, pretty_N. case_decide; [done|].
    by apply (pretty_N_go_ne_dash _ "" "").
  - intros H. pose proof (pretty_N_length (N.pos p)) as Hlen.
    apply (f_equal String.length) in H. rewrite string_length_app in H.
    unfold pretty at 1, pretty_positive in H. cbn in H. lia.
Qed.

Lemma gc_results_ne_sentinel (delta time : Z) : gc_results delta time ≠ "-|-".
Proof.
  intros H. apply (f_equal String.length) in H. unfold gc_results in H.
  rewrite !string_length_app in H. pose proof (pretty_Z_length delta). cbn in H. lia.
Qed.

Lemma string_length_1 (s : string) : String.length s = 1 → ∃ a, s = String a "".
Proof. destruct s as [|a [|b s]]; try done. eauto. Qed.

Lemma fd_results_ne_sentinel (a b : Z) : pretty a +:+ "|" +:+ pretty b ≠ "-|-".
Proof.
  intros H. pose proof (pretty_Z_length a). pose proof (pretty_Z_length b).
  assert (String.length (pretty a) = 1) as [c Hc]%string_length_1.
  { apply (f_equal String.length) in H. rewrite !string_length_app in H. cbn in H. lia. }
  rewrite Hc in H. cbn in H. injection H as -> _.
  by apply (pretty_Z_ne_dash a).
Qed.

Lemma hconn_results_ne_sentinel (cur d : Z) :
  pretty cur +:+ "|" +:+ pretty d ≠ pretty cur +:+ "|-".
Proof.
  intros H. apply (inj (String.app _)) in H.
  change "|-" with ("|" +:+ "-") in H. apply (inj (String.app _)) in H.
  by apply (pretty_Z_ne_dash d).
Qed.

(** ** Role classification *)

Lemma get_role_cases (attributes : gmap string string) :
  get_role attributes =
    let master := default "true" (attributes !! "master") in
    let data := default "true" (attributes !! "data") in
    if decide (master = "true" ∧ data = "true") then ALL
    else if decide (master = "true" ∧ data = "false") then MST
    else if decide (master = "false" ∧ data = "true") then DATA
    else if decide (master = "false" ∧ data = "false") then RTR
    else UNK.
Proof.
  unfold get_role.
  destruct (attributes !! "data") as [d|], (attributes !! "master") as [m|]; simpl;
    repeat case_bool_decide; repeat case_decide; simpl;
    first [reflexivity | exfalso; intuition congruence].
Qed.

(** C5 (as amended).  [get_role] reads each flag with the default "true" and
    returns exactly one role by the table; UNK is returned exactly when a
    flag that is present holds something other than "true" or "false"; with
    both flags missing the role is ALL. *)
Theorem get_role_table (attributes : gmap string string) :
  let master := default "true" (attributes !! "master") in
  let data := default "true" (attributes !! "data") in
  (master = "true" ∧ data = "true" ↔ get_role attributes = ALL) ∧
  (master = "true" ∧ data = "false" ↔ get_role attributes = MST) ∧
  (master = "false" ∧ data = "true" ↔ get_role attributes = DATA) ∧
  (master = "false" ∧ data = "false" ↔ get_role attributes = RTR) ∧
  ((master ≠ "true" ∧ master ≠ "false") ∨ (data ≠ "true" ∧ data ≠ "false")
     ↔ get_role attributes = UNK) ∧
  (attributes !! "master" = None ∧ attributes !! "data" = None →
     get_role attributes = ALL).
Proof.
  rewrite get_role_cases. cbv zeta.
  assert (attributes !! "master" = None ∧ attributes !! "data" = None →
          default "true" (attributes !! "master") = "true" ∧
          default "true" (attributes !! "data") = "true") as Hmissing.
  { by intros [-> ->]. }
  revert Hmissing.
  generalize (default "true" (attributes !! "master")) as m.
  generalize (default "true" (attributes !! "data")) as d.
  intros d m Hmissing.
  destruct (decide (m = "true")), (decide (m = "false")),
           (decide (d = "true")), (decide (d = "false"));
    repeat case_decide; intuition congruence.
Qed.

(** C5, the claim as stated fails: with both flags missing the role is ALL,
    not UNK. *)
Lemma get_role_both_missing :
  (∅ : gmap string string) !! "master" = None ∧
  (∅ : gmap string string) !! "data" = None ∧
  get_role ∅ = ALL ∧ get_role ∅ ≠ UNK.
Proof. done. Qed.

Lemma get_role_table_witness :
  get_role (<["master" := "false"]> (<["data" := "yes"]> ∅)) = UNK.
Proof.
  apply (get_role_table (<["master" := "false"]> (<["data" := "yes"]> ∅))).
  right. split; vm_compute; discriminate.
Defined.

(** ** The counter stores *)

Lemma alter_lookup_insert {A} (f : A → A) (m : gmap string A) (k : string) (c : A) :
  m !! k = Some c → alter f k m = <[k := f c]> m.
Proof.
  intros Hk. apply map_eq. intros j. rewrite lookup_alter, lookup_insert.
  case_decide; subst; by rewrite ?Hk.
Qed.

Lemma get_gc_stats_new (self : ElasticStat) (node_name : string) (gc : collectors) :
  node_counters_gc self !! node_name = None →
  get_gc_stats self node_name gc =
    (set_gc <[node_name := {| gc_old := collection_count (old gc);
                              gc_young := collection_count (young gc) |}]> self,
     ("-|-", "-|-")).
Proof.
  intros Hk. unfold get_gc_stats. rewrite Hk. unfold set_gc; simpl.
  by rewrite !alter_insert_eq.
Qed.

Lemma get_gc_stats_known (self : ElasticStat) (node_name : string) (gc : collectors)
    (c : gc_counter) :
  node_counters_gc self !! node_name = Some c →
  get_gc_stats self node_name gc =
    (set_gc <[node_name := {| gc_old := collection_count (old gc);
                              gc_young := collection_count (young gc) |}]> self,
     (gc_results (collection_count (old gc) - gc_old c)
                 (collection_time_in_millis (old gc)),
      gc_results (collection_count (young gc) - gc_young c)
                 (collection_time_in_millis (young gc)))).
Proof.
  intros Hk. unfold get_gc_stats. rewrite Hk. unfold set_gc; simpl.
  by rewrite (alter_lookup_insert _ _ _ c Hk), alter_insert_eq.
Qed.

Lemma get_fd_stats_new (self : ElasticStat) (node_name : string) (evictions tripped : Z) :
  node_counters_fd self !! node_name = None →
  get_fd_stats self node_name evictions tripped =
    (set_fd <[node_name := {| fde := evictions; fdt := tripped |}]> self, "-|-").
Proof.
  intros Hk. unfold get_fd_stats. rewrite Hk. unfold set_fd; simpl.
  by rewrite !alter_insert_eq.
Qed.

Lemma get_fd_stats_known (self : ElasticStat) (node_name : string)
    (evictions tripped : Z) (c : fd_counter) :
  node_counters_fd self !! node_name = Some c →
  get_fd_stats self node_name evictions tripped =
    (set_fd <[node_name := {| fde := evictions; fdt := tripped |}]> self,
     pretty (evictions - fde c)%Z +:+ "|" +:+ pretty (tripped - fdt c)%Z).
Proof.
  intros Hk. unfold get_fd_stats. rewrite Hk. unfold set_fd; simpl.
  by rewrite (alter_lookup_insert _ _ _ c Hk), alter_insert_eq.
Qed.

Lemma get_http_conns_new (self : ElasticStat) (node_name : string) (conns : http_stats) :
  node_counters_hconn self !! node_name = None →
  get_http_conns self node_name conns =
    (set_hconn <[node_name := total_opened conns]> self,
     pretty (current_open conns) +:+ "|-").
Proof. intros Hk. unfold get_http_conns. by rewrite Hk. Qed.

Lemma get_http_conns_known (self : ElasticStat) (node_name : string)
    (conns : http_stats) (stored : Z) :
  node_counters_hconn self !! node_name = Some stored →
  get_http_conns self node_name conns =
    (set_hconn <[node_name := total_opened conns]> self,
     pretty (current_open conns) +:+ "|" +:+ pretty (total_opened conns - stored)%Z).
Proof. intros Hk. unfold get_http_conns. by rewrite Hk. Qed.

(** C8.  For a key the GC store holds, both fields of each GC text are the
    difference of the collection counts, the second one followed by "ms";
    the collection times of the statistics have no part in the result. *)
Theorem gc_results_delta_in_both_fields (self : ElasticStat) (node_name : string)
    (gc : collectors) (c : gc_counter) :
  node_counters_gc self !! node_name = Some c →
  let old_gc_delta := (collection_count (old gc) - gc_old c)%Z in
  let young_gc_delta := (collection_count (young gc) - gc_young c)%Z in
  (get_gc_stats self node_name gc).2 =
    (pretty old_gc_delta +:+ "|" +:+ pretty old_gc_delta +:+ "ms",
     pretty young_gc_delta +:+ "|" +:+ pretty young_gc_delta +:+ "ms") ∧
  ∀ old_time young_time : Z,
    get_gc_stats self node_name
      {| old := {| collection_count := collection_count (old gc);
                   collection_time_in_millis := old_time |};
         young := {| collection_count := collection_count (young gc);
                     collection_time_in_millis := young_time |} |}
    = get_gc_stats self node_name gc.
Proof.
  intros Hk. split.
  - by rewrite (get_gc_stats_known _ _ _ c Hk).
  - intros old_time young_time. by rewrite !(get_gc_stats_known _ _ _ c Hk).
Qed.

(** ** The buckets under [setdefault_append] and [bucket_remove] *)

Lemma list_remove_Permutation (x : node_id) (l l' : list node_id) :
  list_remove x l = Some l' → l ≡ₚ x :: l'.
Proof.
  revert l'. induction l as [|y l IH]; intros l' Hrm; simpl in Hrm; [done|].
  case_decide; simplify_eq; [done|].
  destruct (list_remove x l) as [l''|]; simplify_eq/=.
  rewrite (IH l'' eq_refl). apply Permutation_swap.
Qed.

Lemma list_remove_elem_of (x : node_id) (l : list node_id) :
  x ∈ l → is_Some (list_remove x l).
Proof.
  induction l as [|y l IH]; [by intros ?%not_elem_of_nil|].
  intros [->|Hin]%elem_of_cons; simpl; case_decide; try done; eauto.
  destruct (IH Hin) as [l' ->]. eauto.
Qed.

Lemma bucket_setdefault_append (r r' : role) (x : node_id) (self : ElasticStat) :
  bucket (setdefault_append r x self) r' =
    if decide (r = r') then bucket self r ++ [x] else bucket self r'.
Proof.
  unfold bucket, setdefault_append. simpl. rewrite lookup_insert.
  by case_decide; subst.
Qed.

Lemma bucket_bucket_remove (r r' : role) (x : node_id) (self self' : ElasticStat) :
  bucket_remove r x self = Ok self' →
  ∃ l', list_remove x (bucket self r) = Some l' ∧
        bucket self' r' = if decide (r = r') then l' else bucket self r'.
Proof.
  unfold bucket_remove, bucket.
  destruct (nodes_by_role self !! r) as [l|] eqn:Hl; simpl; [|done].
  destruct (list_remove x l) as [l'|]; simpl; [|done].
  intros [= <-]. exists l'. split; [done|]. simpl. rewrite lookup_insert.
  by case_decide; subst; rewrite ?Hl.
Qed.

Lemma bind_bucket_move (rs : list role) (r : role) (x : node_id)
    (self self' : ElasticStat) :
  NoDup rs → r ∈ rs →
  bucket self' r ≡ₚ x :: bucket self r →
  (∀ r', r ≠ r' → bucket self' r' = bucket self r') →
  rs ≫= bucket self' ≡ₚ x :: (rs ≫= bucket self).
Proof.
  intros Hnd Hin Hr Hother.
  induction Hnd as [|r0 rs Hr0 Hnd IH]; [by apply not_elem_of_nil in Hin|].
  rewrite !bind_cons.
  apply elem_of_cons in Hin as [->|Hin].
  - assert (rs ≫= bucket self' = rs ≫= bucket self) as ->.
    { clear IH. induction rs as [|r1 rs IH]; [done|].
      apply not_elem_of_cons in Hr0 as [? ?]. apply NoDup_cons in Hnd as [? ?].
      rewrite !bind_cons, (Hother r1) by done. f_equal. by apply IH. }
    by rewrite Hr.
  - rewrite (Hother r0) by (intros ->; done).
    rewrite (IH Hin). by rewrite <-Permutation_middle.
Qed.

Lemma all_roles_NoDup : NoDup all_roles.
Proof. apply (bool_decide_unpack (NoDup all_roles)). by vm_compute. Qed.

Lemma elem_of_all_roles (r : role) : r ∈ all_roles.
Proof. unfold all_roles. destruct r; set_solver. Qed.

Lemma all_buckets_setdefault_append (r : role) (x : node_id) (self : ElasticStat) :
  all_buckets (setdefault_append r x self) ≡ₚ x :: all_buckets self.
Proof.
  apply (bind_bucket_move _ r); [apply all_roles_NoDup|apply elem_of_all_roles|..].
  - rewrite bucket_setdefault_append, decide_True by done.
    by rewrite <-Permutation_cons_append.
  - intros r' Hr'. by rewrite bucket_setdefault_append, decide_False.
Qed.

Lemma all_buckets_bucket_remove (r : role) (x : node_id) (self self' : ElasticStat) :
  bucket_remove r x self = Ok self' →
  all_buckets self ≡ₚ x :: all_buckets self'.
Proof.
  intros Hrm.
  apply (bind_bucket_move _ r); [apply all_roles_NoDup|apply elem_of_all_roles|..].
  - destruct (bucket_bucket_remove r r x _ _ Hrm) as (l' & Hl' & ->).
    rewrite decide_True by done. by apply list_remove_Permutation.
  - intros r' Hr'. destruct (bucket_bucket_remove r r' x _ _ Hrm) as (l' & _ & ->).
    by rewrite decide_False.
Qed.

(** ** What [process_node] does to the state *)

Lemma get_gc_stats_state (self : ElasticStat) (node_name : string) (gc : collectors) :
  (get_gc_stats self node_name gc).1 =
    set_gc <[node_name := {| gc_old := collection_count (old gc);
                             gc_young := collection_count (young gc) |}]> self.
Proof.
  destruct (node_counters_gc self !! node_name) as [c|] eqn:Hk.
  - by rewrite (get_gc_stats_known _ _ _ c Hk).
  - by rewrite (get_gc_stats_new _ _ _ Hk).
Qed.

Lemma get_fd_stats_state (self : ElasticStat) (node_name : string) (evictions tripped : Z) :
  (get_fd_stats self node_name evictions tripped).1 =
    set_fd <[node_name := {| fde := evictions; fdt := tripped |}]> self.
Proof.
  destruct (node_counters_fd self !! node_name) as [c|] eqn:Hk.
  - by rewrite (get_fd_stats_known _ _ _ _ c Hk).
  - by rewrite (get_fd_stats_new _ _ _ _ Hk).
Qed.

Lemma get_http_conns_state (self : ElasticStat) (node_name : string) (conns : http_stats) :
  (get_http_conns self node_name conns).1 =
    set_hconn <[node_name := total_opened conns]> self.
Proof.
  destruct (node_counters_hconn self !! node_name) as [c|] eqn:Hk.
  - by rewrite (get_http_conns_known _ _ _ c Hk).
  - by rewrite (get_http_conns_new _ _ _ Hk).
Qed.

Lemma process_node_dict_state (self : ElasticStat) (r : role) (n : node) :
  (process_node_dict self r n).1 = counted self n.
Proof.
  unfold process_node_dict, counted.
  pose proof (get_gc_stats_state self (name n) (jvm_gc_collectors n)) as Hgc.
  destruct (get_gc_stats self (name n) (jvm_gc_collectors n)) as [s1 [old_gc young_gc]].
  simpl in Hgc. subst s1.
  match goal with |- context [get_fd_stats ?s ?k ?e ?t] =>
    pose proof (get_fd_stats_state s k e t) as Hfd;
    destruct (get_fd_stats s k e t) as [s2 fielddata] end.
  simpl in Hfd. subst s2.
  match goal with |- context [get_http_conns ?s ?k ?h] =>
    pose proof (get_http_conns_state s k h) as Hh;
    destruct (get_http_conns s k h) as [s3 http_conn] end.
  simpl in Hh. subst s3.
  by destruct r.
Qed.

Lemma process_node_state (self : ElasticStat) (r : role) (n : node) :
  (process_node self r n).1 = counted self n.
Proof.
  unfold process_node. rewrite <-process_node_dict_state with (r := r).
  by destruct (process_node_dict self r n).
Qed.

Lemma process_node_line (self : ElasticStat) (r : role) (n : node) :
  (process_node self r n).2 = NODES_TEMPLATE (process_node_dict self r n).2.
Proof. unfold process_node. by destruct (process_node_dict self r n). Qed.

(** ** One round of the loop of [process_role] *)

Lemma process_role_body_Ok (role : role) (nodes_stats : gmap node_id node)
    (x : node_id) (self self' : ElasticStat) (res res' : list row) :
  process_role_body role nodes_stats x self res = Ok (self', res') →
  match nodes_stats !! x with
  | None =>
      ∃ failed_name, node_names self !! x = Some failed_name ∧ self' = self ∧
        res' = res ++ [(x, NODES_FAILED_TEMPLATE failed_name ("(" +:+ role_str role +:+ ")"))]
  | Some n =>
      ∃ s1, (if decide (get_role (attributes n) ≠ role)
             then bucket_remove role x (setdefault_append (get_role (attributes n)) x self)
                  = Ok s1
             else s1 = self) ∧
        self' = counted s1 n ∧
        res' = res ++ [(x, (process_node s1 (get_role (attributes n)) n).2)]
  end.
Proof.
  unfold process_role_body. destruct (nodes_stats !! x) as [n|].
  - intros Hbody.
    assert (∃ s1, (if decide (get_role (attributes n) ≠ role)
                   then bucket_remove role x
                          (setdefault_append (get_role (attributes n)) x self)
                   else Ok self) = Ok s1) as [s1 Hs1].
    { destruct (if decide (get_role (attributes n) ≠ role) then _ else _); [eauto|done]. }
    rewrite Hs1 in Hbody. simpl in Hbody. exists s1.
    pose proof (process_node_state s1 (get_role (attributes n)) n) as Hst.
    destruct (process_node s1 (get_role (attributes n)) n) as [s2 line].
    simpl in *. simplify_eq. split_and!; [|done..].
    case_decide; [done|by simplify_eq].
  - destruct (node_names self !! x) as [nm|]; simpl; [|done].
    intros [= <- <-]. eauto.
Qed.

Lemma bucket_remove_frame (r : role) (x : node_id) (self self' : ElasticStat) :
  bucket_remove r x self = Ok self' →
  nodes_list self' = nodes_list self ∧ node_names self' = node_names self ∧
  active_master self' = active_master self.
Proof.
  unfold bucket_remove. destruct (nodes_by_role self !! r) as [l|]; simpl; [|done].
  destruct (list_remove x l); simpl; [|done]. by intros [= <-].
Qed.

Lemma process_role_body_frame (role : role) (nodes_stats : gmap node_id node)
    (x : node_id) (self self' : ElasticStat) (res res' : list row) :
  process_role_body role nodes_stats x self res = Ok (self', res') →
  nodes_list self' = nodes_list self ∧ node_names self' = node_names self ∧
  active_master self' = active_master self ∧
  all_buckets self' ≡ₚ all_buckets self ∧
  length (bucket self' role) ≤ length (bucket self role) ∧
  ∃ line, res' = res ++ [(x, line)].
Proof.
  intros Hbody%process_role_body_Ok. destruct (nodes_stats !! x) as [n|].
  - destruct Hbody as (s1 & Hs1 & -> & ->).
    change (nodes_list (counted s1 n)) with (nodes_list s1).
    change (node_names (counted s1 n)) with (node_names s1).
    change (active_master (counted s1 n)) with (active_master s1).
    change (all_buckets (counted s1 n)) with (all_buckets s1).
    change (bucket (counted s1 n) role) with (bucket s1 role).
    case_decide as Hrole; [|subst s1; eauto 10].
    destruct (bucket_remove_frame _ _ _ _ Hs1) as (-> & -> & ->).
    split_and!; [done..| | |eauto].
    + apply all_buckets_bucket_remove in Hs1.
      rewrite all_buckets_setdefault_append in Hs1. by apply (inj (x ::.)) in Hs1.
    + destruct (bucket_bucket_remove role role x _ _ Hs1) as (l' & Hl' & ->).
      rewrite decide_True by done.
      apply list_remove_Permutation, Permutation_length in Hl'.
      rewrite bucket_setdefault_append, decide_False in Hl' by done.
      rewrite Hl'. simpl. lia.
  - destruct Hbody as (nm & _ & -> & ->). eauto 10.
Qed.

(** The length of the bucket at entry is fuel enough: the loop ends because
    the index leaves the list, whatever fuel is added. *)
Lemma process_role_loop_fuel (fuel fuel' i : nat) (role : role)
    (nodes_stats : gmap node_id node) (self : ElasticStat) (res : list row) :
  length (bucket self role) - i ≤ fuel → fuel ≤ fuel' →
  process_role_loop fuel i role nodes_stats self res
  = process_role_loop fuel' i role nodes_stats self res.
Proof.
  revert fuel' i self res. induction fuel as [|fuel IH]; intros fuel' i self res Hlen Hle.
  - assert (nodes_by_role self !! role ≫= (.!! i) = None) as Hnone.
    { unfold bucket in Hlen. destruct (nodes_by_role self !! role) as [l|]; [|done].
      simpl in *. apply lookup_ge_None. lia. }
    destruct fuel'; simpl; [done|]. by rewrite Hnone.
  - destruct fuel' as [|fuel']; [lia|]. simpl.
    destruct (nodes_by_role self !! role ≫= (.!! i)) as [x|]; [|done].
    destruct (process_role_body role nodes_stats x self res) as [[self1 res1]|e] eqn:Hbody;
      simpl; [|done].
    apply IH; [|lia].
    apply process_role_body_frame in Hbody as (_ & _ & _ & _ & Hb & _). lia.
Qed.

Lemma process_role_loop_frame (fuel i : nat) (role : role)
    (nodes_stats : gmap node_id node) (self self' : ElasticStat) (res res' : list row) :
  process_role_loop fuel i role nodes_stats self res = Ok (self', res') →
  nodes_list self' = nodes_list self ∧ node_names self' = node_names self ∧
  active_master self' = active_master self ∧
  all_buckets self' ≡ₚ all_buckets self.
Proof.
  revert i self res. induction fuel as [|fuel IH]; intros i self res; simpl.
  - by intros [= <- <-].
  - destruct (nodes_by_role self !! role ≫= (.!! i)) as [x|]; [|by intros [= <- <-]].
    destruct (process_role_body role nodes_stats x self res) as [[self1 res1]|e] eqn:Hbody;
      simpl; [|done].
    intros (-> & -> & -> & ->)%IH.
    by apply process_role_body_frame in Hbody as (-> & -> & -> & -> & _).
Qed.

Lemma process_role_frame (role : role) (nodes_stats : gmap node_id node)
    (self self' : ElasticStat) (res res' : list row) :
  process_role role nodes_stats self res = Ok (self', res') →
  nodes_list self' = nodes_list self ∧ node_names self' = node_names self ∧
  active_master self' = active_master self ∧
  all_buckets self' ≡ₚ all_buckets self.
Proof.
  unfold process_role. destruct (nodes_by_role self !! role); simpl; [|done].
  apply process_role_loop_frame.
Qed.

(** ** The topology through a cycle *)

Lemma occurrences_Permutation (self self' : ElasticStat) (x : node_id) :
  all_buckets self' ≡ₚ all_buckets self → occurrences self' x = occurrences self x.
Proof. unfold occurrences. by intros ->. Qed.

Lemma occurrences_cons (self self' : ElasticStat) (x y : node_id) :
  all_buckets self' ≡ₚ x :: all_buckets self →
  occurrences self' y = (if decide (y = x) then 1 else 0) + occurrences self y.
Proof.
  unfold occurrences. intros ->. rewrite filter_cons.
  by repeat case_decide.
Qed.

Lemma count_NoDup (l : list node_id) (x : node_id) :
  NoDup l → length (filter (x =.) l) = if decide (x ∈ l) then 1 else 0.
Proof.
  induction 1 as [|y l Hy Hnd IH]; [done|].
  rewrite filter_cons. destruct (decide (x = y)) as [->|Hxy].
  - rewrite decide_True by apply list_elem_of_here. simpl.
    rewrite IH, decide_False by done. done.
  - rewrite IH. case_decide as Hx.
    + by rewrite decide_True by by apply list_elem_of_further.
    + rewrite decide_False; [done|]. by intros [?|?]%elem_of_cons.
Qed.

Lemma topology_ok_occurrences (self : ElasticStat) (x : node_id) :
  topology_ok self →
  occurrences self x = if decide (x ∈ nodes_list self) then 1 else 0.
Proof.
  intros (Hperm & Hnd & _). unfold occurrences. rewrite Hperm.
  by apply count_NoDup.
Qed.

Lemma topology_ok_init : topology_ok init.
Proof.
  split_and!; [done|apply NoDup_nil_2|].
  intros x. split; [by intros ?%not_elem_of_nil|].
  unfold init; simpl. rewrite lookup_empty. by intros [? ?].
Qed.

Section cycle_properties.
Context (iter_order : ∀ A : Type, list A → list A).

Lemma process_roles_frame (used : nat) (roles : list role)
    (nodes_stats : gmap node_id node) (self self' : ElasticStat) (res res' : list row) :
  process_roles used roles nodes_stats self res = Ok (self', res') →
  nodes_list self' = nodes_list self ∧ node_names self' = node_names self ∧
  active_master self' = active_master self ∧
  all_buckets self' ≡ₚ all_buckets self.
Proof.
  revert self res. induction roles as [|r roles IH]; intros self res; simpl.
  - case_decide; [done|]. by intros [= <- <-].
  - case_decide; [done|].
    destruct (process_role r nodes_stats self res) as [[self1 res1]|e] eqn:Hrole;
      simpl; [|done].
    intros (-> & -> & -> & ->)%IH. by apply process_role_frame in Hrole.
Qed.

Lemma register_Ok (nodes_stats : gmap node_id node) (self self' : ElasticStat)
    (x : node_id) :
  register nodes_stats self x = Ok self' →
  ∃ n, nodes_stats !! x = Some n ∧
    self' = setdefault_append (get_role (attributes n)) x
              (set_node_names <[x := name n]> (set_nodes_list (λ l, l ++ [x]) self)).
Proof.
  unfold register. destruct (nodes_stats !! x) as [n|]; simpl; [|done].
  intros [= <-]. eauto.
Qed.

Lemma register_frame (nodes_stats : gmap node_id node) (self self' : ElasticStat)
    (x : node_id) :
  register nodes_stats self x = Ok self' →
  nodes_list self' = nodes_list self ++ [x] ∧
  all_buckets self' ≡ₚ x :: all_buckets self ∧
  (∀ y, is_Some (node_names self' !! y) ↔ y = x ∨ is_Some (node_names self !! y)).
Proof.
  intros (n & Hn & ->)%register_Ok. split_and!; [done| |].
  - by rewrite all_buckets_setdefault_append.
  - intros y. simpl. rewrite lookup_insert_is_Some'. intuition congruence.
Qed.

Lemma register_all_frame (nodes_stats : gmap node_id node) (ids : list node_id)
    (self self' : ElasticStat) :
  register_all nodes_stats ids self = Ok self' →
  nodes_list self' = nodes_list self ++ ids ∧
  all_buckets self' ≡ₚ ids ++ all_buckets self ∧
  (∀ y, is_Some (node_names self' !! y) ↔ y ∈ ids ∨ is_Some (node_names self !! y)).
Proof.
  revert self. induction ids as [|x ids IH]; intros self; simpl.
  - intros [= <-]. rewrite app_nil_r. split_and!; [done..|].
    intros y. rewrite elem_of_nil. tauto.
  - destruct (register nodes_stats self x) as [self1|e] eqn:Hreg; simpl; [|done].
    apply register_frame in Hreg as (Hl & Hb & Hn).
    intros (-> & -> & Hn')%IH. rewrite Hl, Hb, <-app_assoc. split_and!; [done| |].
    + by rewrite <-Permutation_middle.
    + intros y. rewrite Hn', Hn, elem_of_cons. tauto.
Qed.

Lemma topology_ok_register_all (nodes_stats : gmap node_id node)
    (ids : list node_id) (self self' : ElasticStat) :
  topology_ok self → NoDup ids → (∀ x, x ∈ ids → x ∉ nodes_list self) →
  register_all nodes_stats ids self = Ok self' →
  topology_ok self'.
Proof.
  intros (Hperm & Hnd & Hnames) Hids Hfresh (Hl & Hb & Hn)%register_all_frame.
  split_and!.
  - rewrite Hb, Hl, Hperm. apply Permutation_app_comm.
  - rewrite Hl. apply NoDup_app. split_and!; [done| |done].
    intros x Hx Hx'. by apply (Hfresh x).
  - intros x. rewrite Hl, Hn, elem_of_app, Hnames. tauto.
Qed.

Hypothesis iter_order_perm : ∀ (A : Type) (l : list A), iter_order A l ≡ₚ l.

Lemma topology_ok_cycle (self self' : ElasticStat)
    (nodes_stats : gmap node_id node) (master : string) (lines : list row) :
  topology_ok self →
  printStats_cycle iter_order self nodes_stats master = Ok (self', lines) →
  topology_ok self'.
Proof.
  intros Hok. unfold printStats_cycle.
  match goal with |- rbind ?m _ = _ → _ => destruct m as [self1|e] eqn:Hreg end;
    simpl; [|done].
  intros (Hl & Hn & _ & Hb)%process_roles_frame.
  assert (topology_ok self1) as (Hperm1 & Hnd1 & Hnames1).
  { assert (topology_ok (set_active_master master self)) as Hok' by done.
    revert Hreg. case_decide as Hfirst.
    - apply topology_ok_register_all; [done| |].
      + rewrite iter_order_perm. apply NoDup_elements.
      + intros x _. simpl in Hfirst |- *. apply length_zero_iff_nil in Hfirst.
        rewrite Hfirst. apply not_elem_of_nil.
    - case_decide; [|by intros [= <-]].
      apply topology_ok_register_all; [done| |]; simpl.
      + rewrite iter_order_perm. apply NoDup_elements.
      + intros x. rewrite iter_order_perm, elem_of_elements, elem_of_difference.
        rewrite elem_of_list_to_set. simpl. tauto. }
  unfold topology_ok. rewrite Hl, Hn, Hb. done.
Qed.

Lemma topology_ok_printStats (rounds : list (gmap node_id node * string))
    (self self' : ElasticStat) (lines : list (list row)) :
  topology_ok self →
  printStats iter_order self rounds = Ok (self', lines) →
  topology_ok self'.
Proof.
  revert self lines. induction rounds as [|[nodes_stats master] rounds IH];
    intros self lines Hok; simpl.
  - by intros [= <- <-].
  - destruct (printStats_cycle iter_order self nodes_stats master)
      as [[self1 lines1]|e] eqn:Hcycle; simpl; [|done].
    apply topology_ok_cycle in Hcycle; [|done].
    destruct (printStats iter_order self1 rounds) as [[self2 rest]|e] eqn:Hrest;
      simpl; [|done].
    intros [= <- <-]. by eapply IH.
Qed.
(** C9.  From the initial state, after any number of rounds, every known
    node takes exactly one place in the buckets and every other id none, and
    a name is recorded for exactly the known nodes.  A registration adds one
    place, for the registered id; a round of the loop of [process_role]
    leaves the number of places of every id as it was, a move included. *)
Theorem one_bucket_per_known_node (rounds : list (gmap node_id node * string))
    (self : ElasticStat) (lines : list (list row)) :
  printStats iter_order init rounds = Ok (self, lines) →
  (∀ x, occurrences self x = if decide (x ∈ nodes_list self) then 1 else 0) ∧
  (∀ x, x ∈ nodes_list self ↔ is_Some (node_names self !! x)) ∧
  (∀ nodes_stats s s' x, register nodes_stats s x = Ok s' →
     ∀ y, occurrences s' y = (if decide (y = x) then 1 else 0) + occurrences s y) ∧
  (∀ role nodes_stats x s s' res res',
     process_role_body role nodes_stats x s res = Ok (s', res') →
     ∀ y, occurrences s' y = occurrences s y).
Proof.
  intros Hrun. apply topology_ok_printStats in Hrun; [|apply topology_ok_init].
  split_and!.
  - intros x. by apply topology_ok_occurrences.
  - apply Hrun.
  - intros nodes_stats s s' x (_ & Hb & _)%register_frame y.
    by apply occurrences_cons.
  - intros role nodes_stats x s s' res res' Hbody y.
    apply occurrences_Permutation.
    by apply process_role_body_frame in Hbody as (_ & _ & _ & Hb & _).
Qed.

(** X10.  A cycle that finds no more nodes than it knows registers nothing,
    whoever is in the snapshot. *)
Lemma cycle_without_registration (self self' : ElasticStat)
    (nodes_stats : gmap node_id node) (master : string) (lines : list row) :
  nodes_list self ≠ [] →
  size nodes_stats ≤ length (nodes_list self) →
  printStats_cycle iter_order self nodes_stats master = Ok (self', lines) →
  nodes_list self' = nodes_list self ∧ node_names self' = node_names self ∧
  all_buckets self' ≡ₚ all_buckets self.
Proof.
  intros Hknown Hsize. unfold printStats_cycle.
  rewrite decide_False by (simpl; by destruct (nodes_list self)).
  rewrite decide_False by (simpl; lia). simpl.
  by intros (-> & -> & _ & ->)%process_roles_frame.
Qed.

Lemma register_all_keeps_name (nodes_stats : gmap node_id node) (ids : list node_id)
    (self self' : ElasticStat) (x : node_id) (nm : string) :
  register_all nodes_stats ids self = Ok self' → x ∉ ids →
  node_names self !! x = Some nm → node_names self' !! x = Some nm.
Proof.
  revert self. induction ids as [|z ids IH]; intros self; simpl.
  - by intros [= <-].
  - destruct (register nodes_stats self z) as [s1|e] eqn:Hreg; simpl; [|done].
    intros Hrest [Hxz Hids]%not_elem_of_cons Hname. apply (IH s1 Hrest Hids).
    apply register_Ok in Hreg as (n' & Hn' & ->). simpl.
    by rewrite lookup_insert_ne.
Qed.

Lemma register_all_registers (nodes_stats : gmap node_id node) (ids : list node_id)
    (self self' : ElasticStat) (x : node_id) (n : node) :
  register_all nodes_stats ids self = Ok self' → x ∈ ids →
  nodes_stats !! x = Some n →
  x ∈ nodes_list self' ∧ node_names self' !! x = Some (name n).
Proof.
  intros Hall Hin Hx. split.
  { apply register_all_frame in Hall as (-> & _ & _). apply elem_of_app. by right. }
  revert self Hall. induction ids as [|y ids IH]; intros self; simpl.
  { by apply not_elem_of_nil in Hin. }
  destruct (register nodes_stats self y) as [s1|e] eqn:Hreg; simpl; [|done].
  intros Hrest.
  destruct (decide (x ∈ ids)) as [Hids|Hids]; [by eapply IH|].
  apply elem_of_cons in Hin as [<-|Hin]; [|done].
  apply (register_all_keeps_name _ _ _ _ _ _ Hrest Hids).
  apply register_Ok in Hreg as (n' & Hn' & ->). simplify_eq. simpl.
  apply lookup_insert_eq.
Qed.

(** X9.  A cycle that finds more nodes than it knows registers every id of the
    snapshot that is not known: it is known afterwards, under the name the
    snapshot gives, and has one place in the buckets. *)
Lemma cycle_with_registration (self self' : ElasticStat)
    (nodes_stats : gmap node_id node) (master : string) (lines : list row)
    (x : node_id) (n : node) :
  topology_ok self →
  length (nodes_list self) < size nodes_stats →
  printStats_cycle iter_order self nodes_stats master = Ok (self', lines) →
  nodes_stats !! x = Some n → x ∉ nodes_list self →
  x ∈ nodes_list self' ∧ node_names self' !! x = Some (name n) ∧
  occurrences self' x = 1.
Proof.
  intros Hok Hsize Hcycle Hx Hnew.
  pose proof (topology_ok_cycle _ _ _ _ _ Hok Hcycle) as Hok'.
  assert (x ∈ nodes_list self' ∧ node_names self' !! x = Some (name n)) as [Hin Hname].
  { revert Hcycle. unfold printStats_cycle.
    match goal with |- rbind ?m _ = _ → _ => destruct m as [self1|e] eqn:Hreg end;
      simpl; [|done].
    intros (-> & -> & _ & _)%process_roles_frame.
    revert Hreg. case_decide as Hfirst.
    - intros Hreg. apply (register_all_registers _ _ _ _ _ _ Hreg); [|done].
      rewrite iter_order_perm, elem_of_elements, elem_of_dom. eauto.
    - case_decide as Hguard; [|simpl in Hguard; lia].
      intros Hreg. apply (register_all_registers _ _ _ _ _ _ Hreg); [|done].
      simpl. rewrite iter_order_perm, elem_of_elements, elem_of_difference.
      rewrite elem_of_dom, elem_of_list_to_set. eauto. }
  split_and!; [done..|].
  by rewrite (topology_ok_occurrences _ _ Hok'), decide_True.
Qed.
End cycle_properties.

(** ** The dictionary of [process_node], key by key *)

Lemma get_gc_stats_result_ext (self other : ElasticStat) (k : string) (gc : collectors) :
  node_counters_gc other !! k = node_counters_gc self !! k →
  (get_gc_stats other k gc).2 = (get_gc_stats self k gc).2.
Proof.
  intros Hk. unfold get_gc_stats. rewrite Hk.
  by destruct (node_counters_gc self !! k).
Qed.

Lemma get_fd_stats_result_ext (self other : ElasticStat) (k : string) (e t : Z) :
  node_counters_fd other !! k = node_counters_fd self !! k →
  (get_fd_stats other k e t).2 = (get_fd_stats self k e t).2.
Proof.
  intros Hk. unfold get_fd_stats. rewrite Hk.
  by destruct (node_counters_fd self !! k).
Qed.

Lemma get_http_conns_result_ext (self other : ElasticStat) (k : string) (h : http_stats) :
  node_counters_hconn other !! k = node_counters_hconn self !! k →
  (get_http_conns other k h).2 = (get_http_conns self k h).2.
Proof.
  intros Hk. unfold get_http_conns. rewrite Hk.
  by destruct (node_counters_hconn self !! k).
Qed.

Lemma process_node_dict_fields (self : ElasticStat) (r : role) (n : node) :
  (process_node_dict self r n).2 =
    {| Processed.name := name n;
       Processed.role :=
         if bool_decide (name n = active_master self)
         then role_str r +:+ "*" else role_str r;
       Processed.load_avg := join "/" (os_load_average n);
       Processed.used_mem := pretty (os_mem_used_percent n) +:+ "%";
       Processed.used_heap := pretty (jvm_mem_heap_used_percent n) +:+ "%";
       Processed.old_gc_sz := jvm_mem_pools_old_used n;
       Processed.old_gc := (get_gc_stats self (name n) (jvm_gc_collectors n)).2.1;
       Processed.young_gc := (get_gc_stats self (name n) (jvm_gc_collectors n)).2.2;
       Processed.threads := λ pool,
         pretty (active (thread_pool n pool)) +:+ "|" +:+
         pretty (queue (thread_pool n pool)) +:+ "|" +:+
         pretty (rejected (thread_pool n pool));
       Processed.fielddata :=
         (get_fd_stats self (name n) (indices_fielddata_evictions n)
                       (breakers_fielddata_tripped n)).2;
       Processed.http_conn := (get_http_conns self (name n) (http n)).2;
       Processed.transport_conn := transport_server_open n;
       Processed.merge_time :=
         match r with DATA | ALL => indices_merges_total_time n | _ => "-" end;
       Processed.store_throttle :=
         match r with DATA | ALL => indices_store_throttle_time n | _ => "-" end;
       Processed.docs :=
         match r with
         | DATA | ALL =>
             pretty (indices_docs_count n) +:+ "|" +:+ pretty (indices_docs_deleted n)
         | _ => "-|-"
         end |}.
Proof.
  unfold process_node_dict.
  pose proof (get_gc_stats_state self (name n) (jvm_gc_collectors n)) as Hgc.
  destruct (get_gc_stats self (name n) (jvm_gc_collectors n)) as [s1 [old_gc young_gc]].
  simpl in Hgc. subst s1.
  match goal with |- context [get_fd_stats ?s ?k ?e ?t] =>
    pose proof (get_fd_stats_state s k e t) as Hfd;
    pose proof (get_fd_stats_result_ext self s k e t eq_refl) as Hfd';
    destruct (get_fd_stats s k e t) as [s2 fielddata] end.
  simpl in Hfd, Hfd'. subst s2. rewrite <-Hfd'.
  match goal with |- context [get_http_conns ?s ?k ?h] =>
    pose proof (get_http_conns_result_ext self s k h eq_refl) as Hh';
    destruct (get_http_conns s k h) as [s3 http_conn] end.
  simpl in Hh'. rewrite <-Hh'.
  by destruct r.
Qed.

(** C10.  In the dictionary behind a node's line, the merge time, the store
    throttle time and the document counts are the node's own figures when
    the role passed to [process_node] is DATA or ALL, and the placeholders
    otherwise, whatever the node's figures are.  The role passed by
    [process_role] is the one classified from the snapshot of this cycle. *)
Theorem data_columns_by_role (self : ElasticStat) (r : role) (n : node) :
  let p := (process_node_dict self r n).2 in
  (process_node self r n).2 = NODES_TEMPLATE p ∧
  (r ≠ DATA → r ≠ ALL →
     Processed.merge_time p = "-" ∧ Processed.store_throttle p = "-" ∧
     Processed.docs p = "-|-") ∧
  (r = DATA ∨ r = ALL →
     Processed.merge_time p = indices_merges_total_time n ∧
     Processed.store_throttle p = indices_store_throttle_time n ∧
     Processed.docs p =
       pretty (indices_docs_count n) +:+ "|" +:+ pretty (indices_docs_deleted n)) ∧
  (∀ role nodes_stats x s s' res res',
     nodes_stats !! x = Some n →
     process_role_body role nodes_stats x s res = Ok (s', res') →
     ∃ s1, res' = res ++
       [(x, NODES_TEMPLATE (process_node_dict s1 (get_role (attributes n)) n).2)]).
Proof.
  cbv zeta. split_and!.
  - apply process_node_line.
  - rewrite process_node_dict_fields. by destruct r.
  - rewrite process_node_dict_fields. by intros [-> | ->].
  - intros role nodes_stats x s s' res res' Hx Hbody%process_role_body_Ok.
    rewrite Hx in Hbody. destruct Hbody as (s1 & _ & _ & ->).
    exists s1. by rewrite process_node_line.
Qed.

Lemma data_columns_by_role_witness :
  Processed.merge_time
    (process_node_dict init RTR (Example.a_node "three" Example.attrs_router 5)).2 = "-" ∧
  Processed.store_throttle
    (process_node_dict init RTR (Example.a_node "three" Example.attrs_router 5)).2 = "-" ∧
  Processed.docs
    (process_node_dict init RTR (Example.a_node "three" Example.attrs_router 5)).2 = "-|-".
Proof.
  apply (data_columns_by_role init RTR (Example.a_node "three" Example.attrs_router 5));
    discriminate.
Defined.

(** C1 (as amended).  Each of the three stores is keyed by the text the
    caller passes, and [process_node] passes the node's display name.  Asked
    about a key it does not hold, a store records the current cumulative
    values under that key and answers with the placeholder; asked about a
    key it holds, it answers with the text of the differences to the
    recorded values and records the current ones.  In both cases the state
    afterwards is the state before with the current values under the key,
    and nothing else changed.  The placeholder is the text of no
    difference, zero included. *)
Theorem observe_baseline_then_delta (self : ElasticStat) (node_name : string)
    (gc : collectors) (evictions tripped : Z) (conns : http_stats) :
  let seen_gc := get_gc_stats self node_name gc in
  let seen_fd := get_fd_stats self node_name evictions tripped in
  let seen_hconn := get_http_conns self node_name conns in
  seen_gc.1 =
    {| node_counters_gc :=
         <[node_name := {| gc_old := collection_count (old gc);
                           gc_young := collection_count (young gc) |}]>
           (node_counters_gc self);
       node_counters_fd := node_counters_fd self;
       node_counters_hconn := node_counters_hconn self;
       nodes_list := nodes_list self;
       nodes_by_role := nodes_by_role self;
       node_names := node_names self;
       new_nodes := new_nodes self;
       active_master := active_master self |} ∧
  seen_fd.1 =
    {| node_counters_gc := node_counters_gc self;
       node_counters_fd :=
         <[node_name := {| fde := evictions; fdt := tripped |}]> (node_counters_fd self);
       node_counters_hconn := node_counters_hconn self;
       nodes_list := nodes_list self;
       nodes_by_role := nodes_by_role self;
       node_names := node_names self;
       new_nodes := new_nodes self;
       active_master := active_master self |} ∧
  seen_hconn.1 =
    {| node_counters_gc := node_counters_gc self;
       node_counters_fd := node_counters_fd self;
       node_counters_hconn :=
         <[node_name := total_opened conns]> (node_counters_hconn self);
       nodes_list := nodes_list self;
       nodes_by_role := nodes_by_role self;
       node_names := node_names self;
       new_nodes := new_nodes self;
       active_master := active_master self |} ∧
  (node_counters_gc self !! node_name = None → seen_gc.2 = ("-|-", "-|-")) ∧
  (node_counters_fd self !! node_name = None → seen_fd.2 = "-|-") ∧
  (node_counters_hconn self !! node_name = None →
     seen_hconn.2 = pretty (current_open conns) +:+ "|-") ∧
  (∀ c, node_counters_gc self !! node_name = Some c →
     let old_gc_delta := (collection_count (old gc) - gc_old c)%Z in
     let young_gc_delta := (collection_count (young gc) - gc_young c)%Z in
     seen_gc.2 =
       (pretty old_gc_delta +:+ "|" +:+ pretty old_gc_delta +:+ "ms",
        pretty young_gc_delta +:+ "|" +:+ pretty young_gc_delta +:+ "ms")) ∧
  (∀ c, node_counters_fd self !! node_name = Some c →
     seen_fd.2 =
       pretty (evictions - fde c)%Z +:+ "|" +:+ pretty (tripped - fdt c)%Z) ∧
  (∀ stored, node_counters_hconn self !! node_name = Some stored →
     seen_hconn.2 =
       pretty (current_open conns) +:+ "|" +:+
       pretty (total_opened conns - stored)%Z) ∧
  (∀ delta : Z, pretty delta +:+ "|" +:+ pretty delta +:+ "ms" ≠ "-|-") ∧
  (∀ fde_delta fdt_delta : Z, pretty fde_delta +:+ "|" +:+ pretty fdt_delta ≠ "-|-") ∧
  (∀ open_delta : Z,
     pretty (current_open conns) +:+ "|" +:+ pretty open_delta
     ≠ pretty (current_open conns) +:+ "|-") ∧
  (∀ (r : role) (n : node),
     let p := (process_node_dict self r n).2 in
     (Processed.old_gc p, Processed.young_gc p)
       = (get_gc_stats self (name n) (jvm_gc_collectors n)).2 ∧
     Processed.fielddata p
       = (get_fd_stats self (name n) (indices_fielddata_evictions n)
                       (breakers_fielddata_tripped n)).2 ∧
     Processed.http_conn p = (get_http_conns self (name n) (http n)).2).
Proof.
  cbv zeta. split_and!.
  - destruct (node_counters_gc self !! node_name) as [c|] eqn:Hk.
    + by rewrite (get_gc_stats_known _ _ _ c Hk).
    + by rewrite (get_gc_stats_new _ _ _ Hk).
  - destruct (node_counters_fd self !! node_name) as [c|] eqn:Hk.
    + by rewrite (get_fd_stats_known _ _ _ _ c Hk).
    + by rewrite (get_fd_stats_new _ _ _ _ Hk).
  - destruct (node_counters_hconn self !! node_name) as [c|] eqn:Hk.
    + by rewrite (get_http_conns_known _ _ _ c Hk).
    + by rewrite (get_http_conns_new _ _ _ Hk).
  - intros Hk. by rewrite (get_gc_stats_new _ _ _ Hk).
  - intros Hk. by rewrite (get_fd_stats_new _ _ _ _ Hk).
  - intros Hk. by rewrite (get_http_conns_new _ _ _ Hk).
  - intros c Hk. by rewrite (get_gc_stats_known _ _ _ c Hk).
  - intros c Hk. by rewrite (get_fd_stats_known _ _ _ _ c Hk).
  - intros c Hk. by rewrite (get_http_conns_known _ _ _ c Hk).
  - intros delta. apply (gc_results_ne_sentinel delta 0).
  - apply fd_results_ne_sentinel.
  - apply hconn_results_ne_sentinel.
  - intros r n. rewrite process_node_dict_fields. simpl.
    by destruct (get_gc_stats self (name n) (jvm_gc_collectors n)) as [? [??]].
Qed.

(** ** Which baseline a node meets *)

Lemma bucket_remove_counters (r : role) (x : node_id) (self self' : ElasticStat) :
  bucket_remove r x self = Ok self' →
  node_counters_gc self' = node_counters_gc self ∧
  node_counters_fd self' = node_counters_fd self ∧
  node_counters_hconn self' = node_counters_hconn self.
Proof.
  unfold bucket_remove. destruct (nodes_by_role self !! r) as [l|]; simpl; [|done].
  destruct (list_remove x l); simpl; [|done]. by intros [= <-].
Qed.

(** C4 (as amended).  The baselines a node meets are those stored under its
    display name.  [process_node] writes the three stores at the key
    [name n] and nowhere else; the line it returns depends on the stores
    only through their entries at that key; and the pass of [process_role]
    does the same for the node it finds under an id, so the id has no part
    in it. *)
Theorem baselines_keyed_by_name (self : ElasticStat) (r : role) (n : node) :
  let self' := (process_node self r n).1 in
  node_counters_gc self' =
    <[name n := {| gc_old := collection_count (old (jvm_gc_collectors n));
                   gc_young := collection_count (young (jvm_gc_collectors n)) |}]>
      (node_counters_gc self) ∧
  node_counters_fd self' =
    <[name n := {| fde := indices_fielddata_evictions n;
                   fdt := breakers_fielddata_tripped n |}]> (node_counters_fd self) ∧
  node_counters_hconn self' =
    <[name n := total_opened (http n)]> (node_counters_hconn self) ∧
  (∀ other : ElasticStat,
     node_counters_gc other !! name n = node_counters_gc self !! name n →
     node_counters_fd other !! name n = node_counters_fd self !! name n →
     node_counters_hconn other !! name n = node_counters_hconn self !! name n →
     active_master other = active_master self →
     (process_node other r n).2 = (process_node self r n).2) ∧
  (∀ role nodes_stats x s s' res res',
     nodes_stats !! x = Some n →
     process_role_body role nodes_stats x s res = Ok (s', res') →
     node_counters_gc s' =
       <[name n := {| gc_old := collection_count (old (jvm_gc_collectors n));
                      gc_young := collection_count (young (jvm_gc_collectors n)) |}]>
         (node_counters_gc s) ∧
     node_counters_fd s' =
       <[name n := {| fde := indices_fielddata_evictions n;
                      fdt := breakers_fielddata_tripped n |}]> (node_counters_fd s) ∧
     node_counters_hconn s' =
       <[name n := total_opened (http n)]> (node_counters_hconn s)).
Proof.
  cbv zeta. rewrite process_node_state. split_and!; [done..| |].
  - intros other Hgc Hfd Hh Hmaster.
    rewrite !process_node_line, !process_node_dict_fields.
    by rewrite (get_gc_stats_result_ext _ _ _ _ Hgc),
      (get_fd_stats_result_ext _ _ _ _ _ Hfd),
      (get_http_conns_result_ext _ _ _ _ Hh), Hmaster.
  - intros role nodes_stats x s s' res res' Hx Hbody%process_role_body_Ok.
    rewrite Hx in Hbody. destruct Hbody as (s1 & Hs1 & -> & _). simpl.
    case_decide; [|by subst s1].
    by apply bucket_remove_counters in Hs1 as (-> & -> & ->).
Qed.

(** ** Cycles in which no node changes role *)

Lemma process_role_body_settled (role : role) (nodes_stats : gmap node_id node)
    (x : node_id) (self : ElasticStat) (res : list row) :
  (∀ n, nodes_stats !! x = Some n → get_role (attributes n) = role) →
  is_Some (node_names self !! x) →
  ∃ self' line,
    process_role_body role nodes_stats x self res = Ok (self', res ++ [(x, line)]) ∧
    nodes_by_role self' = nodes_by_role self ∧
    node_names self' = node_names self ∧
    nodes_list self' = nodes_list self ∧
    (nodes_stats !! x = None → failed_line self role x = Some (x, line)).
Proof.
  intros Hrole [nm Hnm]. unfold process_role_body, failed_line.
  destruct (nodes_stats !! x) as [n|].
  - rewrite decide_False by (rewrite (Hrole n eq_refl); by intros ?). simpl.
    pose proof (process_node_state self (get_role (attributes n)) n) as Hst.
    destruct (process_node self (get_role (attributes n)) n) as [s2 line].
    simpl in Hst. subst s2. by eexists _, _.
  - rewrite Hnm. simpl. by eexists _, _.
Qed.

Lemma process_role_loop_settled (fuel i : nat) (role : role)
    (nodes_stats : gmap node_id node) (self : ElasticStat) (res : list row)
    (l : list node_id) :
  nodes_by_role self !! role = Some l →
  (∀ x n, x ∈ l → nodes_stats !! x = Some n → get_role (attributes n) = role) →
  (∀ x, x ∈ l → is_Some (node_names self !! x)) →
  length l - i ≤ fuel →
  ∃ self' new,
    process_role_loop fuel i role nodes_stats self res = Ok (self', res ++ new) ∧
    nodes_by_role self' = nodes_by_role self ∧
    node_names self' = node_names self ∧
    nodes_list self' = nodes_list self ∧
    new.*1 = drop i l ∧
    (∀ x, x ∈ drop i l → nodes_stats !! x = None →
       ∃ line, failed_line self role x = Some line ∧ line ∈ new).
Proof.
  intros Hl Hrole Hnames. revert i self res Hl Hnames.
  induction fuel as [|fuel IH]; intros i self res Hl Hnames Hfuel.
  - exists self, []. rewrite app_nil_r, drop_ge by lia. simpl.
    split_and!; [done..|]. by intros x ?%not_elem_of_nil.
  - simpl. rewrite Hl. simpl.
    destruct (l !! i) as [x|] eqn:Hi.
    + assert (x ∈ l) as Hx by by eapply list_elem_of_lookup_2.
      destruct (process_role_body_settled role nodes_stats x self res)
        as (self1 & line & -> & Hb1 & Hn1 & Hl1 & Hfailed);
        [by intros n; apply Hrole|by apply Hnames|].
      simpl.
      destruct (IH (S i) self1 (res ++ [(x, line)])) as
        (self' & new & -> & Hb & Hn & Hl' & Hnew & Hgone);
        [by rewrite Hb1|by rewrite Hn1|lia|].
      exists self', ((x, line) :: new). rewrite <-app_assoc, fmap_cons. simpl.
      rewrite Hb, Hb1, Hn, Hn1, Hl', Hl1, Hnew, (drop_S _ _ _ Hi).
      split_and!; [done..|].
      intros y [->|Hy]%elem_of_cons Hgone'.
      * exists (x, line). split; [by apply Hfailed|apply list_elem_of_here].
      * destruct (Hgone y Hy Hgone') as (line' & Hline' & Hin).
        exists line'. split; [|by apply list_elem_of_further].
        revert Hline'. unfold failed_line. by rewrite Hn1.
    + exists self, []. rewrite app_nil_r, drop_ge by by apply lookup_ge_None.
      simpl. split_and!; [done..|]. by intros x ?%not_elem_of_nil.
Qed.

Lemma process_roles_settled (roles : list role) (nodes_stats : gmap node_id node)
    (self : ElasticStat) (res : list row) :
  (∀ r, r ∈ roles → is_Some (nodes_by_role self !! r)) →
  settled self nodes_stats →
  (∀ r x, x ∈ bucket self r → is_Some (node_names self !! x)) →
  ∃ self' new,
    process_roles (size (nodes_by_role self)) roles nodes_stats self res
      = Ok (self', res ++ new) ∧
    nodes_by_role self' = nodes_by_role self ∧
    node_names self' = node_names self ∧
    nodes_list self' = nodes_list self ∧
    new.*1 = roles ≫= bucket self ∧
    (∀ r x, r ∈ roles → x ∈ bucket self r → nodes_stats !! x = None →
       ∃ line, failed_line self r x = Some line ∧ line ∈ new).
Proof.
  intros Hkeys Hsettled Hnames. revert self res Hkeys Hsettled Hnames.
  induction roles as [|r roles IH]; intros self res Hkeys Hsettled Hnames; simpl.
  - rewrite decide_False by by intros ?. exists self, [].
    rewrite app_nil_r. split_and!; [done..|]. by intros r x ?%not_elem_of_nil.
  - rewrite decide_False by by intros ?.
    destruct (Hkeys r) as [l Hl]; [apply list_elem_of_here|].
    assert (bucket self r = l) as Hbl by (unfold bucket; by rewrite Hl).
    unfold process_role. rewrite Hl. simpl.
    destruct (process_role_loop_settled (length l) 0 r nodes_stats self res l)
      as (self1 & new1 & -> & Hb1 & Hn1 & Hl1 & Hnew1 & Hgone1); [done| | |lia|].
    { intros x n Hx. apply Hsettled. by rewrite Hbl. }
    { intros x Hx. apply (Hnames r). by rewrite Hbl. }
    simpl. rewrite <-Hb1.
    assert (∀ r', bucket self1 r' = bucket self r') as Hbucket.
    { intros r'. unfold bucket. by rewrite Hb1. }
    destruct (IH self1 (res ++ new1)) as (self' & new & -> & Hb & Hn & Hl' & Hnew & Hgone).
    { intros r' Hr'. rewrite Hb1. apply Hkeys. by apply list_elem_of_further. }
    { intros r' x n. rewrite Hbucket. apply Hsettled. }
    { intros r' x. rewrite Hbucket, Hn1. apply Hnames. }
    exists self', (new1 ++ new). rewrite <-app_assoc.
    rewrite Hb, Hn, Hn1, Hl', Hl1, fmap_app, Hnew1, Hnew, drop_0, Hbl.
    split_and!; [done..| |].
    + f_equal. clear -Hbucket. induction roles as [|r' roles IH]; [done|].
      by rewrite !bind_cons, Hbucket, IH.
    + intros r' x [->|Hr']%elem_of_cons Hx Hgone'.
      * rewrite Hbl in Hx. destruct (Hgone1 x) as (line & Hline & Hin); [done..|].
        exists line. split; [done|]. apply elem_of_app. by left.
      * destruct (Hgone r' x) as (line & Hline & Hin); [done|by rewrite Hbucket|done|].
        exists line. split; [|apply elem_of_app; by right].
        revert Hline. unfold failed_line. by rewrite Hn1.
Qed.

Lemma bind_nil_outside {A B} (f : A → list B) (l1 l2 : list A) :
  NoDup l1 → NoDup l2 → (∀ r, r ∈ l2 → r ∈ l1) →
  (∀ r, r ∈ l1 → r ∉ l2 → f r = []) →
  l1 ≫= f ≡ₚ l2 ≫= f.
Proof.
  intros Hnd1 Hnd2. revert l1 Hnd1.
  induction Hnd2 as [|r l2 Hr Hnd2 IH]; intros l1 Hnd1 Hsub Hout.
  - clear Hsub. induction l1 as [|r l1 IH]; [done|].
    apply NoDup_cons in Hnd1 as [? ?].
    rewrite bind_cons, (Hout r); [|apply list_elem_of_here|apply not_elem_of_nil].
    apply IH; [done|]. intros r' Hr' _. apply Hout; [|apply not_elem_of_nil].
    by apply list_elem_of_further.
  - destruct (proj1 (elem_of_Permutation l1 r)) as [l1' Hl1'].
    { apply Hsub, list_elem_of_here. }
    rewrite Hl1', !bind_cons. f_equiv.
    rewrite Hl1' in Hnd1. apply NoDup_cons in Hnd1 as [Hr1 Hnd1'].
    apply IH; [done|..].
    + intros r' Hr'. assert (r' ∈ l1) as Hin by by apply Hsub, list_elem_of_further.
      rewrite Hl1' in Hin. apply elem_of_cons in Hin as [->|?]; done.
    + intros r' Hr' Hnot. apply Hout.
      * rewrite Hl1'. by apply list_elem_of_further.
      * intros [->|?]%elem_of_cons; done.
Qed.

Lemma elem_of_all_buckets (self : ElasticStat) (x : node_id) :
  x ∈ all_buckets self ↔ ∃ r, x ∈ bucket self r.
Proof.
  unfold all_buckets. rewrite list_elem_of_bind. split.
  - intros (r & Hx & _). eauto.
  - intros [r Hx]. exists r. split; [done|apply elem_of_all_roles].
Qed.

Lemma bucket_names_known (self : ElasticStat) (r : role) (x : node_id) :
  topology_ok self → x ∈ bucket self r → is_Some (node_names self !! x).
Proof.
  intros (Hperm & _ & Hnames) Hx. apply Hnames. rewrite <-Hperm.
  apply elem_of_all_buckets. eauto.
Qed.

Section quiet_cycle.
Context (iter_order : ∀ A : Type, list A → list A).
Hypothesis iter_order_perm : ∀ (A : Type) (l : list A), iter_order A l ≡ₚ l.

Lemma keys_bind_bucket (self : ElasticStat) :
  iter_order role (elements (dom (nodes_by_role self))) ≫= bucket self
  ≡ₚ all_buckets self.
Proof.
  rewrite iter_order_perm. symmetry. apply bind_nil_outside.
  - apply all_roles_NoDup.
  - apply NoDup_elements.
  - intros r _. apply elem_of_all_roles.
  - intros r _. rewrite elem_of_elements, elem_of_dom. unfold bucket.
    destruct (nodes_by_role self !! r); [|done]. intros []. eauto.
Qed.

Lemma register_all_settled (nodes_stats : gmap node_id node) (ids : list node_id)
    (self : ElasticStat) :
  (∀ x, x ∈ ids → is_Some (nodes_stats !! x)) →
  settled self nodes_stats →
  ∃ self', register_all nodes_stats ids self = Ok self' ∧
    settled self' nodes_stats ∧
    (∀ r x, x ∈ bucket self r → x ∈ bucket self' r).
Proof.
  revert self. induction ids as [|y ids IH]; intros self Hids Hsettled; simpl.
  { by exists self. }
  destruct (Hids y) as [n Hn]; [apply list_elem_of_here|].
  unfold register at 1. rewrite Hn. simpl.
  match goal with |- context [register_all _ _ ?s] =>
    destruct (IH s) as (self' & -> & Hsettled' & Hkeep) end.
  - intros x Hx. apply Hids. by apply list_elem_of_further.
  - intros r x n'. rewrite bucket_setdefault_append.
    case_decide as Hr; [subst r|apply Hsettled].
    intros [Hx|Hx%list_elem_of_singleton]%elem_of_app Hn'; [by eapply Hsettled|].
    subst x. congruence.
  - exists self'. split_and!; [done..|].
    intros r x Hx. apply Hkeep. rewrite bucket_setdefault_append.
    case_decide; [subst; apply elem_of_app; by left|done].
Qed.

(** A cycle whose snapshot shows every known node under the role of its
    bucket completes; every known node, the nodes registered in this cycle
    included, gets exactly one line; a known node that is not in the
    snapshot gets the line that reports it as gone, with the recorded name
    and the role of its bucket in parentheses; and no node leaves its
    bucket. *)
Lemma cycle_without_role_change (self : ElasticStat)
    (nodes_stats : gmap node_id node) (master : string) :
  topology_ok self → settled self nodes_stats →
  ∃ self' lines,
    printStats_cycle iter_order self nodes_stats master = Ok (self', lines) ∧
    lines.*1 ≡ₚ nodes_list self' ∧
    (∀ x, x ∈ nodes_list self' → emitted x lines = 1) ∧
    (∀ r x, x ∈ bucket self' r → nodes_stats !! x = None →
       ∃ line, failed_line self' r x = Some line ∧ line ∈ lines) ∧
    (∀ r x, x ∈ bucket self r → x ∈ bucket self' r).
Proof.
  intros Hok Hsettled. unfold printStats_cycle. cbv zeta.
  match goal with |- ∃ _ _, rbind ?m _ = _ ∧ _ =>
    assert (∃ self1, m = Ok self1 ∧ settled self1 nodes_stats ∧
              (∀ r x, x ∈ bucket self r → x ∈ bucket self1 r))
      as (self1 & Hreg & Hsettled1 & Hkeep1) end.
  { case_decide.
    - match goal with |- ∃ _, register_all _ ?ids ?s = _ ∧ _ =>
        destruct (register_all_settled nodes_stats ids s)
          as (s1 & H1 & H2 & H3); [|exact Hsettled|] end.
      { intros x. rewrite iter_order_perm, elem_of_elements. apply elem_of_dom. }
      exists s1. split_and!; [exact H1|exact H2|exact H3].
    - case_decide.
      + match goal with |- ∃ _, register_all _ ?ids ?s = _ ∧ _ =>
          destruct (register_all_settled nodes_stats ids s)
            as (s1 & H1 & H2 & H3); [|exact Hsettled|] end.
        { simpl. intros x.
          rewrite iter_order_perm, elem_of_elements, elem_of_difference.
          intros [Hx _]. by apply elem_of_dom. }
        exists s1. split_and!; [exact H1|exact H2|exact H3].
      + eexists. split_and!; [reflexivity|exact Hsettled|by intros r x Hx]. }
  assert (topology_ok self1) as Hok1.
  { revert Hreg. case_decide as Hfirst.
    - apply topology_ok_register_all; [done| |].
      + rewrite iter_order_perm. apply NoDup_elements.
      + intros x _. simpl in Hfirst |- *. apply length_zero_iff_nil in Hfirst.
        rewrite Hfirst. apply not_elem_of_nil.
    - case_decide; [|by intros [= <-]].
      apply topology_ok_register_all; [done| |]; simpl.
      + rewrite iter_order_perm. apply NoDup_elements.
      + intros x. rewrite iter_order_perm, elem_of_elements, elem_of_difference.
        rewrite elem_of_list_to_set. simpl. tauto. }
  rewrite Hreg. simpl.
  destruct (process_roles_settled
              (iter_order role (elements (dom (nodes_by_role self1))))
              nodes_stats self1 [])
    as (self' & new & -> & Hb & Hn & Hl & Hnew & Hgone); [|done| |].
  { intros r. rewrite iter_order_perm, elem_of_elements. apply elem_of_dom. }
  { intros r x. by apply bucket_names_known. }
  assert (∀ r, bucket self' r = bucket self1 r) as Hbucket.
  { intros r. unfold bucket. by rewrite Hb. }
  assert (new.*1 ≡ₚ nodes_list self') as Hperm.
  { rewrite Hnew, keys_bind_bucket, Hl. apply Hok1. }
  exists self', new. simpl. split_and!; [done|done| | |].
  - intros x Hx. unfold emitted. rewrite Hperm.
    destruct Hok1 as (_ & Hnd & _). rewrite Hl in Hx |- *.
    by rewrite count_NoDup, decide_True.
  - intros r x. rewrite Hbucket. intros Hx Hgone'.
    destruct (Hgone r x) as (line & Hline & Hin); [|done..|].
    { rewrite iter_order_perm, elem_of_elements, elem_of_dom. unfold bucket in Hx.
      destruct (nodes_by_role self1 !! r); [eauto|by apply not_elem_of_nil in Hx]. }
    exists line. split; [|done]. revert Hline. unfold failed_line. by rewrite Hn.
  - intros r x Hx. rewrite Hbucket. by apply Hkeep1.
Qed.
End quiet_cycle.

(** ** A role change under the iterators *)

Lemma bucket_cons_lookup (self : ElasticStat) (r : role) (y : node_id)
    (l : list node_id) :
  bucket self r = y :: l → nodes_by_role self !! r = Some (y :: l).
Proof. unfold bucket. by destruct (nodes_by_role self !! r); intros; simplify_eq/=. Qed.

Lemma list_remove_subseteq (x : node_id) (l l' : list node_id) :
  list_remove x l = Some l' → ∀ y, y ∈ l' → y ∈ l.
Proof.
  intros Hrm%list_remove_Permutation y Hy. rewrite Hrm. by apply list_elem_of_further.
Qed.

Lemma emitted_snoc (y x : node_id) (line : string) (res : list row) :
  emitted y (res ++ [(x, line)]) = emitted y res + (if decide (y = x) then 1 else 0).
Proof.
  unfold emitted. rewrite fmap_app, filter_app, length_app. simpl.
  rewrite filter_cons. by case_decide.
Qed.

(** The body of the loop, for a node whose role has changed: the node is at
    the end of the bucket of its new role and out of the old bucket when its
    line is made, and the line carries the new role. *)
Lemma process_role_body_moves (role : role) (nodes_stats : gmap node_id node)
    (x : node_id) (n : node) (self self' : ElasticStat) (res res' : list row) :
  nodes_stats !! x = Some n → get_role (attributes n) ≠ role →
  process_role_body role nodes_stats x self res = Ok (self', res') →
  bucket self' (get_role (attributes n)) = bucket self (get_role (attributes n)) ++ [x] ∧
  list_remove x (bucket self role) = Some (bucket self' role) ∧
  ∃ s1, bucket s1 (get_role (attributes n)) = bucket self' (get_role (attributes n)) ∧
    bucket s1 role = bucket self' role ∧
    res' = res ++ [(x, NODES_TEMPLATE (process_node_dict s1 (get_role (attributes n)) n).2)] ∧
    Processed.role (process_node_dict s1 (get_role (attributes n)) n).2 =
      if bool_decide (name n = active_master self)
      then role_str (get_role (attributes n)) +:+ "*"
      else role_str (get_role (attributes n)).
Proof.
  intros Hx Hrole Hbody%process_role_body_Ok. rewrite Hx in Hbody.
  destruct Hbody as (s1 & Hs1 & -> & ->). rewrite decide_True in Hs1 by done.
  change (bucket (counted s1 n)) with (bucket s1).
  destruct (bucket_bucket_remove _ (get_role (attributes n)) _ _ _ Hs1) as (l' & Hl' & Hnew).
  destruct (bucket_bucket_remove _ role _ _ _ Hs1) as (l'' & Hl'' & Hold).
  rewrite decide_False in Hnew by done. rewrite decide_True in Hold by done.
  rewrite bucket_setdefault_append, decide_True in Hnew by done.
  rewrite bucket_setdefault_append, decide_False in Hl'' by done.
  apply bucket_remove_frame in Hs1 as (_ & _ & Hmaster).
  split_and!; [done|by rewrite Hold|]. exists s1.
  split_and!; [done|done|by rewrite process_node_line|].
  by rewrite process_node_dict_fields, Hmaster.
Qed.

Lemma process_role_loop_S_Ok (fuel i : nat) (role : role)
    (nodes_stats : gmap node_id node) (self self' : ElasticStat) (res res' : list row)
    (x : node_id) :
  nodes_by_role self !! role ≫= (.!! i) = Some x →
  process_role_loop (S fuel) i role nodes_stats self res = Ok (self', res') →
  ∃ self1 res1,
    process_role_body role nodes_stats x self res = Ok (self1, res1) ∧
    process_role_loop fuel (S i) role nodes_stats self1 res1 = Ok (self', res').
Proof.
  intros Hx. simpl. rewrite Hx.
  destruct (process_role_body role nodes_stats x self res) as [[self1 res1]|e];
    simpl; [eauto|done].
Qed.

Lemma process_role_loop_head_kept (fuel i : nat) (role : role)
    (nodes_stats : gmap node_id node) (self self' : ElasticStat) (res res' : list row)
    (y : node_id) (l : list node_id) :
  1 ≤ i → bucket self role = y :: l → y ∉ l →
  process_role_loop fuel i role nodes_stats self res = Ok (self', res') →
  emitted y res' = emitted y res ∧ ∃ l', bucket self' role = y :: l'.
Proof.
  intros Hi. revert i Hi self res l.
  induction fuel as [|fuel IH]; intros i Hi self res l Hb Hy; simpl.
  { intros [= <- <-]. eauto. }
  rewrite (bucket_cons_lookup _ _ _ _ Hb). simpl.
  destruct i as [|j]; [lia|]. simpl.
  destruct (l !! j) as [z|] eqn:Hz; [|intros [= <- <-]; eauto].
  assert (z ∈ l) as Hzl by by eapply list_elem_of_lookup_2.
  assert (y ≠ z) as Hyz by by intros ->.
  destruct (process_role_body role nodes_stats z self res) as [[self1 res1]|e] eqn:Hbody;
    simpl; [|done].
  assert (emitted y res1 = emitted y res ∧ ∃ l1, bucket self1 role = y :: l1 ∧ y ∉ l1)
    as (Hemit & l1 & Hb1 & Hy1).
  { pose proof (process_role_body_Ok _ _ _ _ _ _ _ Hbody) as Hok.
    destruct (nodes_stats !! z) as [n|] eqn:Hn.
    - destruct Hok as (s1 & Hs1 & -> & ->).
      rewrite emitted_snoc, decide_False by done.
      split; [lia|]. change (bucket (counted s1 n) role) with (bucket s1 role).
      case_decide as Hrole; [|subst s1; eauto].
      destruct (bucket_bucket_remove _ role _ _ _ Hs1) as (l' & Hl' & ->).
      rewrite decide_True by done.
      rewrite bucket_setdefault_append, decide_False, Hb in Hl' by done.
      simpl in Hl'. rewrite decide_False in Hl' by done.
      destruct (list_remove z l) as [l1|] eqn:Hl1; simplify_eq/=.
      exists l1. split; [done|]. intros Hin. apply Hy.
      by eapply list_remove_subseteq.
    - destruct Hok as (nm & _ & -> & ->).
      rewrite emitted_snoc, decide_False by done. split; [lia|eauto]. }
  intros Hloop. destruct (IH (S (S j)) ltac:(lia) self1 res1 l1 Hb1 Hy1 Hloop)
    as (Hemit' & l' & Hb').
  split; [congruence|eauto].
Qed.

(** X17.  The node that follows a node whose role has changed gets no line in the
    pass of their bucket: the removal moves it under the index the iterator
    has already passed. *)
Lemma process_role_skips_next (role : role) (nodes_stats : gmap node_id node)
    (self self' : ElasticStat) (res res' : list row)
    (x y : node_id) (n : node) (l : list node_id) :
  nodes_by_role self !! role = Some (x :: y :: l) →
  x ≠ y → y ∉ l →
  nodes_stats !! x = Some n → get_role (attributes n) ≠ role →
  process_role role nodes_stats self res = Ok (self', res') →
  emitted y res' = emitted y res ∧ y ∈ bucket self' role.
Proof.
  intros Hl Hxy Hy Hx Hrole. unfold process_role. rewrite Hl.
  intros (self1 & res1 & Hbody & Hloop)%(process_role_loop_S_Ok _ _ _ _ _ _ _ _ x);
    [|by rewrite Hl].
  destruct (process_role_body_moves _ _ _ _ _ _ _ _ Hx Hrole Hbody)
    as (_ & Hrm & s1 & _ & _ & -> & _).
  assert (bucket self role = x :: y :: l) as Hb by (unfold bucket; by rewrite Hl).
  rewrite Hb in Hrm. simpl in Hrm. rewrite decide_True in Hrm by done.
  injection Hrm as Hb1.
  destruct (process_role_loop_head_kept _ 1 _ _ _ _ _ _ y l ltac:(lia) (eq_sym Hb1) Hy Hloop)
    as (Hemit & l' & Hb').
  rewrite Hemit, emitted_snoc, decide_False by done.
  split; [lia|]. rewrite Hb'. apply list_elem_of_here.
Qed.

Lemma process_role_body_size (role : role) (nodes_stats : gmap node_id node)
    (x : node_id) (self self' : ElasticStat) (res res' : list row) :
  process_role_body role nodes_stats x self res = Ok (self', res') →
  size (nodes_by_role self) ≤ size (nodes_by_role self') ∧
  (∀ n, nodes_stats !! x = Some n → get_role (attributes n) ≠ role →
     nodes_by_role self !! get_role (attributes n) = None →
     size (nodes_by_role self') = S (size (nodes_by_role self))).
Proof.
  intros Hbody%process_role_body_Ok. destruct (nodes_stats !! x) as [n|].
  - destruct Hbody as (s1 & Hs1 & -> & _).
    change (nodes_by_role (counted s1 n)) with (nodes_by_role s1).
    case_decide as Hrole; [|subst s1; split; [done|]; by intros ? [= <-]].
    revert Hs1. unfold bucket_remove. simpl.
    rewrite lookup_insert_ne by done.
    destruct (nodes_by_role self !! role) as [l|] eqn:Hl; simpl; [|done].
    destruct (list_remove x l) as [l'|]; simpl; [|done].
    intros [= <-]. simpl.
    rewrite map_size_insert_Some by (rewrite lookup_insert_ne by done; eauto).
    split.
    + destruct (nodes_by_role self !! get_role (attributes n)) eqn:Hcr.
      * by rewrite map_size_insert_Some by eauto.
      * rewrite map_size_insert_None by done. lia.
    + intros ? [= <-] _ Hcr. by rewrite map_size_insert_None.
  - destruct Hbody as (nm & _ & -> & _). split; [done|]. by intros.
Qed.

Lemma process_role_loop_size (fuel i : nat) (role : role)
    (nodes_stats : gmap node_id node) (self self' : ElasticStat) (res res' : list row) :
  process_role_loop fuel i role nodes_stats self res = Ok (self', res') →
  size (nodes_by_role self) ≤ size (nodes_by_role self').
Proof.
  revert i self res. induction fuel as [|fuel IH]; intros i self res; simpl.
  - by intros [= <- <-].
  - destruct (nodes_by_role self !! role ≫= (.!! i)) as [x|]; [|by intros [= <- <-]].
    destruct (process_role_body role nodes_stats x self res) as [[self1 res1]|e] eqn:Hbody;
      simpl; [|done].
    intros Hloop%IH. apply process_role_body_size in Hbody as [? _]. lia.
Qed.

Lemma process_roles_after_growth (used : nat) (roles : list role)
    (nodes_stats : gmap node_id node) (self : ElasticStat) (res : list row) :
  size (nodes_by_role self) ≠ used →
  process_roles used roles nodes_stats self res = Raise RuntimeError.
Proof. intros Hsize. destruct roles; simpl; by rewrite decide_True. Qed.

(** X18.  A node, first in its bucket, whose new role has no bucket yet: the move
    adds a key to the dictionary under enumeration and the cycle does not
    complete. *)
Lemma process_roles_new_bucket_raises (roles : list role) (role : role)
    (nodes_stats : gmap node_id node) (self : ElasticStat) (res : list row)
    (x : node_id) (n : node) (l : list node_id) :
  nodes_by_role self !! role = Some (x :: l) →
  nodes_stats !! x = Some n → get_role (attributes n) ≠ role →
  nodes_by_role self !! get_role (attributes n) = None →
  ∃ e, process_roles (size (nodes_by_role self)) (role :: roles) nodes_stats self res
       = Raise e.
Proof.
  intros Hl Hx Hrole Hnew. simpl. rewrite decide_False by by intros ?.
  destruct (process_role role nodes_stats self res) as [[self2 res2]|e] eqn:Hpass;
    simpl; [|eauto].
  exists RuntimeError. apply process_roles_after_growth.
  revert Hpass. unfold process_role. rewrite Hl.
  intros (self1 & res1 & Hbody & Hloop)%(process_role_loop_S_Ok _ _ _ _ _ _ _ _ x);
    [|by rewrite Hl].
  apply process_role_loop_size in Hloop.
  apply process_role_body_size in Hbody as [_ Hgrow].
  specialize (Hgrow n Hx Hrole Hnew). lia.
Qed.

(** ** Runs of the sample clusters *)

Lemma observe_baseline_then_delta_witness :
  let one5 := Example.a_node "one" Example.attrs_data 5 in
  let one7 := Example.a_node "one" Example.attrs_data 7 in
  let conns := {| current_open := 3; total_opened := 12 |} in
  let seen := (process_node init DATA one5).1 in
  (get_gc_stats init "one" (jvm_gc_collectors one5)).2 = ("-|-", "-|-") ∧
  (get_gc_stats seen "one" (jvm_gc_collectors one7)).2 = ("2|2ms", "0|0ms") ∧
  (get_fd_stats seen "one" 4 1).2 = "4|1" ∧
  (get_http_conns init "one" conns).2 = "3|-" ∧
  (get_http_conns seen "one" conns).2 = "3|2" ∧
  node_counters_hconn (get_http_conns seen "one" conns).1 !! "one" = Some 12%Z.
Proof.
  cbv zeta.
  pose proof (observe_baseline_then_delta init "one"
                (jvm_gc_collectors (Example.a_node "one" Example.attrs_data 5))
                4 1 {| current_open := 3; total_opened := 12 |})
    as (_ & _ & _ & Hgc0 & _ & Hh0 & _).
  pose proof (observe_baseline_then_delta
                (process_node init DATA (Example.a_node "one" Example.attrs_data 5)).1
                "one"
                (jvm_gc_collectors (Example.a_node "one" Example.attrs_data 7))
                4 1 {| current_open := 3; total_opened := 12 |})
    as (_ & _ & Hstate & _ & _ & _ & Hgc & Hfd & Hh & _).
  split_and!.
  - apply Hgc0. reflexivity.
  - apply (Hgc {| gc_old := 5; gc_young := 20 |}). reflexivity.
  - apply (Hfd {| fde := 0; fdt := 0 |}). reflexivity.
  - apply Hh0. reflexivity.
  - apply (Hh 10%Z). reflexivity.
  - rewrite Hstate. reflexivity.
Defined.

(** C1, the claim as stated fails.  Node B is observed for the first time
    in the second round, under the name of node A, which the stores hold:
    its first line shows differences to the figures of A, a zero among
    them, and no placeholder. *)
Lemma first_observation_under_known_name :
  ∃ self lines1 lines2,
    printStats Example.order init Example.same_name = Ok (self, [lines1; lines2]) ∧
    emitted "B" lines1 = 0 ∧
    lines2 !! 1 = Some ("B", Example.a_line "n" "DATA" "4|4ms" "0|0ms" "0|0" "3|0") ∧
    emitted "B" lines2 = 1.
Proof. eexists _, _, _. split; [vm_compute; reflexivity|]. by vm_compute. Qed.

Lemma gc_results_delta_in_both_fields_witness :
  (get_gc_stats (set_gc <[ "one" := {| gc_old := 5; gc_young := 20 |} ]> init) "one"
     (jvm_gc_collectors (Example.a_node "one" Example.attrs_data 7))).2
  = ("2|2ms", "0|0ms").
Proof.
  apply (gc_results_delta_in_both_fields
           (set_gc <[ "one" := {| gc_old := 5; gc_young := 20 |} ]> init) "one"
           (jvm_gc_collectors (Example.a_node "one" Example.attrs_data 7))
           {| gc_old := 5; gc_young := 20 |}).
  reflexivity.
Defined.

Lemma baselines_keyed_by_name_witness :
  node_counters_gc (process_node init DATA (Example.a_node "n" Example.attrs_data 5)).1
  = <[ "n" := {| gc_old := 5; gc_young := 20 |} ]> ∅.
Proof.
  apply (baselines_keyed_by_name init DATA (Example.a_node "n" Example.attrs_data 5)).
Defined.

(** C4, the claim as stated fails.  A node that comes back under another
    name meets no baseline (its line shows the placeholders, and the old
    baseline stays under the old name), and a node that joins under the name
    of another meets that node's baseline on its first observation (its line
    shows a difference of 4 for the old generation). *)
Lemma baselines_follow_the_name :
  (∃ self lines1 lines2,
     printStats Example.order init Example.renamed = Ok (self, [lines1; lines2]) ∧
     lines2 = [("A", Example.a_line "m" "DATA" "-|-" "-|-" "-|-" "3|-")] ∧
     node_counters_gc self !! "n" = Some {| gc_old := 5; gc_young := 20 |} ∧
     node_counters_gc self !! "m" = Some {| gc_old := 9; gc_young := 20 |}) ∧
  (∃ self lines1 lines2,
     printStats Example.order init Example.same_name = Ok (self, [lines1; lines2]) ∧
     lines2 = [("A", Example.a_line "n" "DATA" "0|0ms" "0|0ms" "0|0" "3|0");
               ("B", Example.a_line "n" "DATA" "4|4ms" "0|0ms" "0|0" "3|0")]).
Proof.
  split.
  - eexists _, _, _. split; [vm_compute; reflexivity|]. by vm_compute.
  - eexists _, _, _. split; [vm_compute; reflexivity|]. by vm_compute.
Qed.

Lemma one_bucket_per_known_node_witness :
  ∃ self lines,
    printStats Example.order init Example.leave_and_return = Ok (self, lines) ∧
    occurrences self "n2" = 1 ∧ occurrences self "n3" = 0.
Proof.
  destruct (printStats Example.order init Example.leave_and_return)
    as [[self lines]|e] eqn:Hrun.
  - exists self, lines. split; [reflexivity|].
    destruct (one_bucket_per_known_node Example.order
                (λ A l, reflexivity l) _ _ _ Hrun) as (Hocc & _).
    rewrite !Hocc. vm_compute in Hrun. injection Hrun as <- _. by vm_compute.
  - vm_compute in Hrun. discriminate.
Defined.

(** C2, on the code.  Node n2 leaves and node n3 joins between two rounds:
    the snapshot is no larger than the list of known nodes, so n3 is not
    registered; it has no name, no bucket and no line. *)
Lemma joined_node_unregistered_when_another_left :
  ∃ self lines1 lines2,
    printStats Example.order init Example.join_while_leave
      = Ok (self, [lines1; lines2]) ∧
    bool_decide ("n3" ∈ nodes_list self) = false ∧
    node_names self !! "n3" = None ∧
    occurrences self "n3" = 0 ∧
    emitted "n3" lines2 = 0.
Proof. eexists _, _, _. split; [vm_compute; reflexivity|]. by vm_compute. Qed.

(** C3, on the code.  Node a, first in the DATA bucket, changes role in the
    third round; the removal shortens the list under the iterator, and node
    b, which follows it and is in the snapshot, gets no line in that round.
    With the ALL bucket visited after the DATA bucket, a gets two. *)
Lemma node_after_role_change_skipped :
  ∃ self lines1 lines2 lines3,
    printStats Example.order init Example.role_change_before_present
      = Ok (self, [lines1; lines2; lines3]) ∧
    emitted "b" lines2 = 1 ∧
    emitted "b" lines3 = 0 ∧
    emitted "a" lines3 = 2 ∧
    bucket self DATA = ["b"].
Proof. eexists _, _, _, _. split; [vm_compute; reflexivity|]. by vm_compute. Qed.

(** C6, on the code.  As before, but node b is absent from the third
    snapshot: it is skipped all the same, so no line reports it as gone. *)
Lemma absent_node_after_role_change_unreported :
  ∃ self lines1 lines2 lines3,
    printStats Example.order init Example.role_change_before_absent
      = Ok (self, [lines1; lines2; lines3]) ∧
    emitted "b" lines3 = 0 ∧
    bucket self DATA = ["b"] ∧
    node_names self !! "b" = Some "beta".
Proof. eexists _, _, _, _. split; [vm_compute; reflexivity|]. by vm_compute. Qed.

(** C7, on the code.  The only data node becomes master-eligible: the move
    creates the ALL bucket while the dictionary of buckets is being
    enumerated, and the round ends in a RuntimeError before any line of it
    is printed. *)
Lemma role_change_into_new_bucket_raises :
  (∃ self lines1,
     printStats Example.order init (take 1 Example.role_change_new_bucket)
       = Ok (self, [lines1]) ∧
     bucket self DATA = ["n4"] ∧ nodes_by_role self !! ALL = None) ∧
  printStats Example.order init Example.role_change_new_bucket = Raise RuntimeError.
Proof.
  split; [|by vm_compute].
  eexists _, _. split; [vm_compute; reflexivity|]. by vm_compute.
Qed.

(** The scenarios of the specification.  A and B: node n1 is first seen
    with 5 old-generation collections and then with 7; node n2 is away in
    the second round and back in the third, still in the DATA bucket. *)
Example scenarios_A_B :
  ∃ self lines1 lines2 lines3,
    printStats Example.order init Example.leave_and_return
      = Ok (self, [lines1; lines2; lines3]) ∧
    lines1 = [("n1", Example.a_line "one" "DATA*" "-|-" "-|-" "-|-" "3|-");
              ("n2", Example.a_line "two" "DATA" "-|-" "-|-" "-|-" "3|-")] ∧
    lines2 = [("n1", Example.a_line "one" "DATA*" "2|2ms" "0|0ms" "0|0" "3|0");
              ("n2", NODES_FAILED_TEMPLATE "two" "(DATA)")] ∧
    lines3 = [("n1", Example.a_line "one" "DATA*" "0|0ms" "0|0ms" "0|0" "3|0");
              ("n2", Example.a_line "two" "DATA" "3|3ms" "0|0ms" "0|0" "3|0")] ∧
    bucket self DATA = ["n1"; "n2"].
Proof. eexists _, _, _, _. split; [vm_compute; reflexivity|]. by vm_compute. Qed.

(** C: a client node. *)
Example scenario_C :
  get_role Example.attrs_router = RTR ∧
  (process_node init RTR (Example.a_node "three" Example.attrs_router 5)).2 =
    NODES_TEMPLATE
      {| Processed.name := "three";
         Processed.role := "RTR";
         Processed.load_avg := "0.5/0.25/0.1";
         Processed.used_mem := "40%";
         Processed.used_heap := "55%";
         Processed.old_gc_sz := "1.2gb";
         Processed.old_gc := "-|-";
         Processed.young_gc := "-|-";
         Processed.threads := λ _, "1|2|0";
         Processed.fielddata := "-|-";
         Processed.http_conn := "3|-";
         Processed.transport_conn := 13;
         Processed.merge_time := "-";
         Processed.store_throttle := "-";
         Processed.docs := "-|-" |}.
Proof. split; by vm_compute. Qed.

(** D: the elected master. *)
Example scenario_D :
  Processed.role
    (process_node_dict (set_active_master "gamma" init) ALL
       (Example.a_node "gamma" Example.attrs_all 5)).2 = "ALL*".
Proof. by vm_compute. Qed.

(** E, in a cluster that has a master-and-data node already: the line of n4
    in the second round carries the role ALL, and n4 is in the ALL bucket
    from then on. *)
Example scenario_E_known_bucket :
  ∃ self lines1 lines2 lines3,
    printStats Example.order init Example.role_change_known_bucket
      = Ok (self, [lines1; lines2; lines3]) ∧
    lines2 !! 0 = Some ("n4", Example.a_line "four" "ALL" "2|2ms" "0|0ms" "0|0" "3|0") ∧
    emitted "n4" lines3 = 1 ∧
    bucket self ALL = ["n5"; "n4"] ∧ bucket self DATA = [].
Proof. eexists _, _, _, _. split; [vm_compute; reflexivity|]. by vm_compute. Qed.

(** * More of the engine *)

(** ** The counter stores through a run *)

Section stores_induction.
(** A property of the three stores that writing a node's figures under its
    name keeps. *)
Context (P : gmap string gc_counter → gmap string fd_counter → gmap string Z → Prop).
Hypothesis P_counted : ∀ g f h (n : node),
  P g f h →
  P (<[name n := {| gc_old := collection_count (old (jvm_gc_collectors n));
                    gc_young := collection_count (young (jvm_gc_collectors n)) |}]> g)
    (<[name n := {| fde := indices_fielddata_evictions n;
                    fdt := breakers_fielddata_tripped n |}]> f)
    (<[name n := total_opened (http n)]> h).


Lemma holds_process_role_body (role : role) (nodes_stats : gmap node_id node)
    (x : node_id) (self self' : ElasticStat) (res res' : list row) :
  P (node_counters_gc self) (node_counters_fd self) (node_counters_hconn self) →
  process_role_body role nodes_stats x self res = Ok (self', res') →
  P (node_counters_gc self') (node_counters_fd self') (node_counters_hconn self').
Proof.
  intros Hself Hbody%process_role_body_Ok. destruct (nodes_stats !! x) as [n|].
  - destruct Hbody as (s1 & Hs1 & -> & _). simpl.
    apply P_counted. case_decide; [|by subst s1].
    apply bucket_remove_counters in Hs1 as (Hg & Hf & Hh). by rewrite Hg, Hf, Hh.
  - by destruct Hbody as (nm & _ & -> & _).
Qed.

Lemma holds_process_role_loop (fuel i : nat) (role : role)
    (nodes_stats : gmap node_id node) (self self' : ElasticStat) (res res' : list row) :
  P (node_counters_gc self) (node_counters_fd self) (node_counters_hconn self) →
  process_role_loop fuel i role nodes_stats self res = Ok (self', res') →
  P (node_counters_gc self') (node_counters_fd self') (node_counters_hconn self').
Proof.
  revert i self res. induction fuel as [|fuel IH]; intros i self res Hself; simpl.
  - by intros [= <- <-].
  - destruct (nodes_by_role self !! role ≫= (.!! i)) as [x|]; [|by intros [= <- <-]].
    destruct (process_role_body role nodes_stats x self res) as [[self1 res1]|e] eqn:Hbody;
      simpl; [|done].
    apply IH. by eapply holds_process_role_body.
Qed.

Lemma holds_process_roles (used : nat) (roles : list role)
    (nodes_stats : gmap node_id node) (self self' : ElasticStat) (res res' : list row) :
  P (node_counters_gc self) (node_counters_fd self) (node_counters_hconn self) →
  process_roles used roles nodes_stats self res = Ok (self', res') →
  P (node_counters_gc self') (node_counters_fd self') (node_counters_hconn self').
Proof.
  revert self res. induction roles as [|r roles IH]; intros self res Hself; simpl.
  - case_decide; [done|]. by intros [= <- <-].
  - case_decide; [done|].
    destruct (process_role r nodes_stats self res) as [[self1 res1]|e] eqn:Hrole;
      simpl; [|done].
    apply IH. revert Hrole. unfold process_role.
    destruct (nodes_by_role self !! r); simpl; [|done].
    by apply holds_process_role_loop.
Qed.

Lemma holds_register_all (nodes_stats : gmap node_id node) (ids : list node_id)
    (self self' : ElasticStat) :
  P (node_counters_gc self) (node_counters_fd self) (node_counters_hconn self) →
  register_all nodes_stats ids self = Ok self' →
  P (node_counters_gc self') (node_counters_fd self') (node_counters_hconn self').
Proof.
  revert self. induction ids as [|x ids IH]; intros self Hself; simpl.
  - by intros [= <-].
  - destruct (register nodes_stats self x) as [s1|e] eqn:Hreg; simpl; [|done].
    apply IH. by apply register_Ok in Hreg as (n & _ & ->).
Qed.

Lemma holds_cycle (iter_order : ∀ A : Type, list A → list A)
    (self self' : ElasticStat) (nodes_stats : gmap node_id node) (master : string)
    (lines : list row) :
  P (node_counters_gc self) (node_counters_fd self) (node_counters_hconn self) →
  printStats_cycle iter_order self nodes_stats master = Ok (self', lines) →
  P (node_counters_gc self') (node_counters_fd self') (node_counters_hconn self').
Proof.
  intros Hself. unfold printStats_cycle.
  match goal with |- rbind ?m _ = _ → _ => destruct m as [self1|e] eqn:Hreg end;
    simpl; [|done].
  apply holds_process_roles. revert Hreg.
  case_decide; [by apply holds_register_all|].
  case_decide; [by apply holds_register_all|by intros [= <-]].
Qed.

Lemma holds_printStats (iter_order : ∀ A : Type, list A → list A)
    (rounds : list (gmap node_id node * string))
    (self self' : ElasticStat) (lines : list (list row)) :
  P (node_counters_gc self) (node_counters_fd self) (node_counters_hconn self) →
  printStats iter_order self rounds = Ok (self', lines) →
  P (node_counters_gc self') (node_counters_fd self') (node_counters_hconn self').
Proof.
  revert self lines. induction rounds as [|[nodes_stats master] rounds IH];
    intros self lines Hself; simpl.
  - by intros [= <- <-].
  - destruct (printStats_cycle iter_order self nodes_stats master)
      as [[self1 lines1]|e] eqn:Hcycle; simpl; [|done].
    destruct (printStats iter_order self1 rounds) as [[self2 rest]|e] eqn:Hrest;
      simpl; [|done].
    intros [= <- <-]. eapply IH; [|done]. by eapply holds_cycle.
Qed.
End stores_induction.

(** X3.  The three stores are written together, so they hold the same keys, and
    a node's line shows the placeholder in all its counter cells or in
    none. *)
Theorem counter_cells_all_or_none (iter_order : ∀ A : Type, list A → list A)
    (rounds : list (gmap node_id node * string))
    (self : ElasticStat) (lines : list (list row)) (r : role) (n : node) :
  printStats iter_order init rounds = Ok (self, lines) →
  dom (node_counters_gc self) = dom (node_counters_fd self) ∧
  dom (node_counters_fd self) = dom (node_counters_hconn self) ∧
  (let p := (process_node_dict self r n).2 in
  ((name n ∉ dom (node_counters_gc self)) ∧
   Processed.old_gc p = "-|-" ∧ Processed.young_gc p = "-|-" ∧
   Processed.fielddata p = "-|-" ∧
   Processed.http_conn p = pretty (current_open (http n)) +:+ "|-")
  ∨
  (∃ c f h,
     node_counters_gc self !! name n = Some c ∧
     node_counters_fd self !! name n = Some f ∧
     node_counters_hconn self !! name n = Some h ∧
     Processed.old_gc p =
       gc_results (collection_count (old (jvm_gc_collectors n)) - gc_old c)
                  (collection_time_in_millis (old (jvm_gc_collectors n))) ∧
     Processed.young_gc p =
       gc_results (collection_count (young (jvm_gc_collectors n)) - gc_young c)
                  (collection_time_in_millis (young (jvm_gc_collectors n))) ∧
     Processed.fielddata p =
       pretty (indices_fielddata_evictions n - fde f)%Z +:+ "|" +:+
       pretty (breakers_fielddata_tripped n - fdt f)%Z ∧
     Processed.http_conn p =
       pretty (current_open (http n)) +:+ "|" +:+
       pretty (total_opened (http n) - h)%Z)).
Proof.
  intros Hrun.
  assert (dom (node_counters_gc self) = dom (node_counters_fd self) ∧
          dom (node_counters_fd self) = dom (node_counters_hconn self)) as [Hgf Hfh].
  { apply (holds_printStats (λ g f h, dom g = dom f ∧ dom f = dom h))
      with (self := init) in Hrun; [done| |done].
    intros g f h n' [Hgf Hfh]. by rewrite !dom_insert_L, Hgf, Hfh. }
  split_and!; [done..|]. cbv zeta. rewrite process_node_dict_fields. simpl.
  destruct (node_counters_gc self !! name n) as [c|] eqn:Hc.
  - right.
    assert (is_Some (node_counters_fd self !! name n)) as [f Hf].
    { apply elem_of_dom. rewrite <-Hgf. apply elem_of_dom. eauto. }
    assert (is_Some (node_counters_hconn self !! name n)) as [h Hh].
    { apply elem_of_dom. rewrite <-Hfh. apply elem_of_dom. eauto. }
    exists c, f, h.
    by rewrite (get_gc_stats_known _ _ _ _ Hc), (get_fd_stats_known _ _ _ _ _ Hf),
      (get_http_conns_known _ _ _ _ Hh).
  - left.
    assert (node_counters_fd self !! name n = None) as Hf.
    { apply not_elem_of_dom. rewrite <-Hgf. by apply not_elem_of_dom. }
    assert (node_counters_hconn self !! name n = None) as Hh.
    { apply not_elem_of_dom. rewrite <-Hfh, <-Hgf. by apply not_elem_of_dom. }
    rewrite (get_gc_stats_new _ _ _ Hc), (get_fd_stats_new _ _ _ _ Hf),
      (get_http_conns_new _ _ _ Hh).
    split_and!; [|done..]. by apply not_elem_of_dom.
Qed.

Lemma counter_cells_all_or_none_witness :
  ∃ self lines,
    printStats Example.order init Example.renamed = Ok (self, lines) ∧
    dom (node_counters_gc self) = dom (node_counters_fd self) ∧
    dom (node_counters_fd self) = dom (node_counters_hconn self).
Proof.
  destruct (printStats Example.order init Example.renamed)
    as [[self lines]|e] eqn:Hrun.
  - exists self, lines. split; [done|].
    destruct (counter_cells_all_or_none Example.order _ _ _ ALL
                (Example.a_node "n" Example.attrs_all 0) Hrun) as (Hgf & Hfh & _).
    done.
  - vm_compute in Hrun. discriminate.
Defined.

(** X4.  A second look at a node in the same state of the stores shows no
    difference anywhere: the first look has made the node's figures the
    baseline, and the second leaves the stores as they are. *)
Theorem process_node_again_shows_zero (self : ElasticStat) (r r' : role) (n : node) :
  let seen := (process_node self r n).1 in
  let p := (process_node_dict seen r' n).2 in
  (process_node seen r' n).1 = seen ∧
  Processed.old_gc p = "0|0ms" ∧ Processed.young_gc p = "0|0ms" ∧
  Processed.fielddata p = "0|0" ∧
  Processed.http_conn p = pretty (current_open (http n)) +:+ "|0".
Proof.
  cbv zeta. rewrite !process_node_state, process_node_dict_fields. simpl.
  split_and!.
  - unfold counted, set_hconn, set_fd, set_gc. simpl. by rewrite !insert_insert_eq.
  - erewrite get_gc_stats_known by apply lookup_insert_eq. simpl.
    by rewrite Z.sub_diag.
  - erewrite get_gc_stats_known by apply lookup_insert_eq. simpl.
    by rewrite Z.sub_diag.
  - erewrite get_fd_stats_known by apply lookup_insert_eq. simpl.
    by rewrite !Z.sub_diag.
  - erewrite get_http_conns_known by apply lookup_insert_eq. simpl.
    by rewrite Z.sub_diag.
Qed.

(** ** Where the nodes of a bucket come from *)

Lemma process_role_body_origin (role : role) (nodes_stats : gmap node_id node)
    (x : node_id) (self self' : ElasticStat) (res res' : list row) :
  process_role_body role nodes_stats x self res = Ok (self', res') →
  ∀ r y, y ∈ bucket self' r →
    y ∈ bucket self r ∨ ∃ n, nodes_stats !! y = Some n ∧ get_role (attributes n) = r.
Proof.
  intros Hbody%process_role_body_Ok r y. destruct (nodes_stats !! x) as [n|] eqn:Hx.
  - destruct Hbody as (s1 & Hs1 & -> & _).
    change (bucket (counted s1 n) r) with (bucket s1 r).
    case_decide as Hrole; [|subst s1; auto].
    destruct (bucket_bucket_remove _ r _ _ _ Hs1) as (l' & Hl' & ->).
    rewrite bucket_setdefault_append in Hl'. rewrite decide_False in Hl' by done.
    case_decide as Hr.
    + subst r. intros Hy. left. by eapply list_remove_subseteq.
    + rewrite bucket_setdefault_append. case_decide as Hcr; [|auto]. subst r.
      intros [Hy|Hy%list_elem_of_singleton]%elem_of_app; [by left|].
      subst y. right. eauto.
  - destruct Hbody as (nm & _ & -> & _). auto.
Qed.

Lemma process_role_loop_origin (fuel i : nat) (role : role)
    (nodes_stats : gmap node_id node) (self self' : ElasticStat) (res res' : list row) :
  process_role_loop fuel i role nodes_stats self res = Ok (self', res') →
  ∀ r y, y ∈ bucket self' r →
    y ∈ bucket self r ∨ ∃ n, nodes_stats !! y = Some n ∧ get_role (attributes n) = r.
Proof.
  revert i self res. induction fuel as [|fuel IH]; intros i self res; simpl.
  - intros [= <- <-]. auto.
  - destruct (nodes_by_role self !! role ≫= (.!! i)) as [x|]; [|intros [= <- <-]; auto].
    destruct (process_role_body role nodes_stats x self res) as [[self1 res1]|e] eqn:Hbody;
      simpl; [|done].
    intros Hloop r y Hy. destruct (IH _ _ _ Hloop r y Hy) as [Hy1|?]; [|auto].
    by eapply process_role_body_origin.
Qed.

Lemma process_roles_origin (used : nat) (roles : list role)
    (nodes_stats : gmap node_id node) (self self' : ElasticStat) (res res' : list row) :
  process_roles used roles nodes_stats self res = Ok (self', res') →
  ∀ r y, y ∈ bucket self' r →
    y ∈ bucket self r ∨ ∃ n, nodes_stats !! y = Some n ∧ get_role (attributes n) = r.
Proof.
  revert self res. induction roles as [|r0 roles IH]; intros self res; simpl.
  - case_decide; [done|]. intros [= <- <-]. auto.
  - case_decide; [done|].
    destruct (process_role r0 nodes_stats self res) as [[self1 res1]|e] eqn:Hrole;
      simpl; [|done].
    intros Hrest r y Hy. destruct (IH _ _ Hrest r y Hy) as [Hy1|?]; [|auto].
    revert Hrole. unfold process_role.
    destruct (nodes_by_role self !! r0); simpl; [|done].
    intros Hloop. by eapply process_role_loop_origin.
Qed.

Lemma register_all_origin (nodes_stats : gmap node_id node) (ids : list node_id)
    (self self' : ElasticStat) :
  register_all nodes_stats ids self = Ok self' →
  ∀ r y, y ∈ bucket self' r →
    y ∈ bucket self r ∨ ∃ n, nodes_stats !! y = Some n ∧ get_role (attributes n) = r.
Proof.
  revert self. induction ids as [|x ids IH]; intros self; simpl.
  - intros [= <-]. auto.
  - destruct (register nodes_stats self x) as [s1|e] eqn:Hreg; simpl; [|done].
    intros Hrest r y Hy. destruct (IH _ Hrest r y Hy) as [Hy1|?]; [|auto].
    apply register_Ok in Hreg as (n & Hn & ->).
    rewrite bucket_setdefault_append in Hy1. case_decide as Hr; [|auto].
    subst r. apply elem_of_app in Hy1 as [Hy1|Hy1%list_elem_of_singleton]; [by left|].
    subst y. right. eauto.
Qed.

Lemma printStats_cycle_origin (iter_order : ∀ A : Type, list A → list A)
    (self self' : ElasticStat) (nodes_stats : gmap node_id node) (master : string)
    (lines : list row) (r : role) (y : node_id) :
  printStats_cycle iter_order self nodes_stats master = Ok (self', lines) →
  y ∈ bucket self' r →
  y ∈ bucket self r ∨ ∃ n, nodes_stats !! y = Some n ∧ get_role (attributes n) = r.
Proof.
  unfold printStats_cycle.
  match goal with |- rbind ?m _ = _ → _ => destruct m as [self1|e] eqn:Hreg end;
    simpl; [|done].
  intros Hroles Hy.
  destruct (process_roles_origin _ _ _ _ _ _ _ Hroles r y Hy) as [Hy1|?]; [|auto].
  revert Hreg. case_decide.
  - intros Hreg. by apply (register_all_origin _ _ _ _ Hreg).
  - case_decide; [|by intros [= <-]; auto].
    intros Hreg. by apply (register_all_origin _ _ _ _ Hreg).
Qed.

(** ** Lines are for known nodes *)

Lemma process_role_loop_lines (fuel i : nat) (role : role)
    (nodes_stats : gmap node_id node) (self self' : ElasticStat) (res res' : list row)
    (known : list node_id) :
  all_buckets self ≡ₚ known →
  (∀ row, row ∈ res → row.1 ∈ known) →
  process_role_loop fuel i role nodes_stats self res = Ok (self', res') →
  ∀ row, row ∈ res' → row.1 ∈ known.
Proof.
  revert i self res. induction fuel as [|fuel IH]; intros i self res Hperm Hres; simpl.
  - by intros [= <- <-].
  - destruct (nodes_by_role self !! role) as [l|] eqn:Hl; simpl; [|by intros [= <- <-]].
    destruct (l !! i) as [x|] eqn:Hx; [|by intros [= <- <-]].
    destruct (process_role_body role nodes_stats x self res) as [[self1 res1]|e] eqn:Hbody;
      simpl; [|done].
    apply process_role_body_frame in Hbody as (_ & _ & _ & Hb & _ & line & ->).
    apply IH; [by rewrite Hb|].
    intros row [Hrow|Hrow%list_elem_of_singleton]%elem_of_app; [auto|]. subst row. simpl.
    rewrite <-Hperm. apply elem_of_all_buckets. exists role.
    unfold bucket. rewrite Hl. simpl. by eapply list_elem_of_lookup_2.
Qed.

Lemma process_roles_lines (used : nat) (roles : list role)
    (nodes_stats : gmap node_id node) (self self' : ElasticStat) (res res' : list row)
    (known : list node_id) :
  all_buckets self ≡ₚ known →
  (∀ row, row ∈ res → row.1 ∈ known) →
  process_roles used roles nodes_stats self res = Ok (self', res') →
  ∀ row, row ∈ res' → row.1 ∈ known.
Proof.
  revert self res. induction roles as [|r roles IH]; intros self res Hperm Hres; simpl.
  - case_decide; [done|]. by intros [= <- <-].
  - case_decide; [done|].
    destruct (process_role r nodes_stats self res) as [[self1 res1]|e] eqn:Hrole;
      simpl; [|done].
    pose proof (process_role_frame _ _ _ _ _ _ Hrole) as (_ & _ & _ & Hb).
    apply IH; [by rewrite Hb|].
    revert Hrole. unfold process_role.
    destruct (nodes_by_role self !! r); simpl; [|done].
    by apply process_role_loop_lines.
Qed.

(** ** What a cycle keeps and what it prints *)

Section more_of_the_cycle.
Context (iter_order : ∀ A : Type, list A → list A).
Hypothesis iter_order_perm : ∀ (A : Type) (l : list A), iter_order A l ≡ₚ l.

Lemma registration_topology_ok (self self1 : ElasticStat)
    (nodes_stats : gmap node_id node) :
  topology_ok self →
  (if decide (length (nodes_list self) = 0)
   then register_all nodes_stats
          (iter_order node_id (elements (dom nodes_stats))) self
   else
     if decide (length (nodes_list self) < size nodes_stats)
     then register_all nodes_stats
            (iter_order node_id
               (elements (dom nodes_stats ∖ list_to_set (nodes_list self))))
            (set_new_nodes
               (iter_order node_id
                  (elements (dom nodes_stats ∖ list_to_set (nodes_list self))))
               (set_new_nodes [] self))
     else Ok (set_new_nodes [] self)) = Ok self1 →
  topology_ok self1 ∧
  (∃ ids, nodes_list self1 = nodes_list self ++ ids) ∧
  (∀ x nm, node_names self !! x = Some nm → node_names self1 !! x = Some nm).
Proof.
  intros Hok.
  assert (∀ ids s, topology_ok s → nodes_list s = nodes_list self →
            node_names s = node_names self →
            NoDup ids → (∀ x, x ∈ ids → x ∉ nodes_list self) →
            register_all nodes_stats ids s = Ok self1 →
            topology_ok self1 ∧
            (∃ ids, nodes_list self1 = nodes_list self ++ ids) ∧
            (∀ x nm, node_names self !! x = Some nm → node_names self1 !! x = Some nm))
    as Hall.
  { intros ids s Hs Hl Hn Hnd Hfresh Hreg. split_and!.
    - eapply topology_ok_register_all; [done..| |done]. by rewrite Hl.
    - exists ids. apply register_all_frame in Hreg as (-> & _). by rewrite Hl.
    - intros x nm Hx. eapply register_all_keeps_name; [done| |by rewrite Hn].
      intros Hin. apply (Hfresh x Hin). apply Hok. eauto. }
  case_decide as Hfirst.
  - apply Hall; [done..| |].
    + rewrite iter_order_perm. apply NoDup_elements.
    + intros x _. apply length_zero_iff_nil in Hfirst. rewrite Hfirst.
      apply not_elem_of_nil.
  - case_decide.
    + apply Hall; [done..| |].
      * rewrite iter_order_perm. apply NoDup_elements.
      * intros x. rewrite iter_order_perm, elem_of_elements, elem_of_difference.
        rewrite elem_of_list_to_set. tauto.
    + intros [= <-]. split_and!; [done| |done]. exists []. simpl. by rewrite app_nil_r.
Qed.

(** X11.  Every line of a cycle that completes is the line of a known node: an
    id that is not registered gets no line, whether it is in the snapshot or
    not. *)
Theorem lines_only_for_known_nodes (self self' : ElasticStat)
    (nodes_stats : gmap node_id node) (master : string) (lines : list row)
    (x : node_id) (line : string) :
  topology_ok self →
  printStats_cycle iter_order self nodes_stats master = Ok (self', lines) →
  (x, line) ∈ lines →
  x ∈ nodes_list self' ∧ is_Some (node_names self' !! x).
Proof.
  intros Hok Hcycle Hline.
  pose proof (topology_ok_cycle _ iter_order_perm _ _ _ _ _ Hok Hcycle) as Hok'.
  assert (x ∈ nodes_list self') as Hx; [|split; [done|by apply Hok']].
  revert Hcycle. unfold printStats_cycle.
  match goal with |- rbind ?m _ = _ → _ => destruct m as [self1|e] eqn:Hreg end;
    simpl; [|done].
  intros Hroles.
  pose proof (process_roles_frame _ _ _ _ _ _ _ Hroles) as (Hl & _ & _ & Hb).
  apply (registration_topology_ok (set_active_master master self)) in Hreg
    as (Hok1 & _); [|exact Hok].
  apply (process_roles_lines _ _ _ _ _ _ _ (nodes_list self') ltac:(rewrite Hl; apply Hok1)
           ltac:(by intros row ?%not_elem_of_nil) Hroles (x, line) Hline).
Qed.

Lemma cycle_keeps_known (self self' : ElasticStat)
    (nodes_stats : gmap node_id node) (master : string) (lines : list row) :
  topology_ok self →
  printStats_cycle iter_order self nodes_stats master = Ok (self', lines) →
  nodes_list self `prefix_of` nodes_list self' ∧
  (∀ x nm, node_names self !! x = Some nm → node_names self' !! x = Some nm).
Proof.
  intros Hok. unfold printStats_cycle.
  match goal with |- rbind ?m _ = _ → _ => destruct m as [self1|e] eqn:Hreg end;
    simpl; [|done].
  intros (-> & -> & _)%process_roles_frame.
  apply (registration_topology_ok (set_active_master master self)) in Hreg
    as (_ & [ids ->] & Hnames); [|exact Hok].
  split; [by exists ids|exact Hnames].
Qed.

Lemma printStats_keeps_known (rounds : list (gmap node_id node * string))
    (self self' : ElasticStat) (lines : list (list row)) :
  topology_ok self →
  printStats iter_order self rounds = Ok (self', lines) →
  nodes_list self `prefix_of` nodes_list self' ∧
  (∀ x nm, node_names self !! x = Some nm → node_names self' !! x = Some nm).
Proof.
  revert self lines. induction rounds as [|[nodes_stats master] rounds IH];
    intros self lines Hok; simpl.
  - by intros [= <- <-].
  - destruct (printStats_cycle iter_order self nodes_stats master)
      as [[self1 lines1]|e] eqn:Hcycle; simpl; [|done].
    destruct (printStats iter_order self1 rounds) as [[self2 rest]|e] eqn:Hrest;
      simpl; [|done].
    intros [= <- <-].
    pose proof (topology_ok_cycle _ iter_order_perm _ _ _ _ _ Hok Hcycle) as Hok1.
    apply cycle_keeps_known in Hcycle as [Hpre Hnames]; [|done].
    destruct (IH _ _ Hok1 Hrest) as [Hpre' Hnames'].
    split; [by etrans|]. intros x nm Hx. by apply Hnames', Hnames.
Qed.

(** X12.  What the engine knows it keeps: through any rounds that complete, the
    list of known nodes only grows at its end, the name recorded for a node
    stays the name of its registration, and no key leaves a counter store. *)
Theorem known_nodes_never_forgotten (rounds : list (gmap node_id node * string))
    (self self' : ElasticStat) (lines : list (list row)) :
  topology_ok self →
  printStats iter_order self rounds = Ok (self', lines) →
  nodes_list self `prefix_of` nodes_list self' ∧
  (∀ x nm, node_names self !! x = Some nm → node_names self' !! x = Some nm) ∧
  dom (node_counters_gc self) ⊆ dom (node_counters_gc self') ∧
  dom (node_counters_fd self) ⊆ dom (node_counters_fd self') ∧
  dom (node_counters_hconn self) ⊆ dom (node_counters_hconn self').
Proof.
  intros Hok Hrun.
  destruct (printStats_keeps_known _ _ _ _ Hok Hrun) as [Hpre Hnames].
  split_and!; [done..| | |];
    apply (holds_printStats
             (λ g f h, dom (node_counters_gc self) ⊆ dom g ∧
                       dom (node_counters_fd self) ⊆ dom f ∧
                       dom (node_counters_hconn self) ⊆ dom h))
      with (self := self) in Hrun; try done; try apply Hrun;
    intros g f h n (Hg & Hf & Hh); rewrite !dom_insert_L;
    split_and!; by apply union_subseteq_r'.
Qed.

Lemma run_settled (role_of : node_id → role)
    (rounds : list (gmap node_id node * string)) (self : ElasticStat) :
  Forall (λ round : gmap node_id node * string,
            map_Forall (λ x n, get_role (attributes n) = role_of x) round.1) rounds →
  topology_ok self →
  (∀ r x, x ∈ bucket self r → role_of x = r) →
  ∃ self' lines,
    printStats iter_order self rounds = Ok (self', lines) ∧
    length lines = length rounds ∧
    Forall (λ l, NoDup l.*1) lines ∧
    (∀ l, last lines = Some l → l.*1 ≡ₚ nodes_list self') ∧
    (∀ r x, x ∈ bucket self' r → role_of x = r).
Proof.
  revert self. induction rounds as [|[nodes_stats master] rounds IH];
    intros self Hfixed Hok Hrole; simpl.
  { exists self, []. split_and!; [done..| |done]. by intros l [=]. }
  apply Forall_cons in Hfixed as [Hhere Hfixed]. simpl in Hhere.
  destruct (cycle_without_role_change _ iter_order_perm self nodes_stats master)
    as (self1 & lines1 & Hcycle & Hperm & _); [done| |].
  { intros r x n Hx Hn. rewrite <-(Hrole r x Hx). by apply (Hhere x n). }
  rewrite Hcycle. simpl.
  pose proof (topology_ok_cycle _ iter_order_perm _ _ _ _ _ Hok Hcycle) as Hok1.
  destruct (IH self1) as (self' & lines & Hrest & Hlen & Hnd & Hlast & Hrole');
    [|done| |].
  { done. }
  { intros r x Hx.
    destruct (printStats_cycle_origin _ _ _ _ _ _ r x Hcycle Hx)
      as [Hx'|(n & Hn & <-)]; [by apply Hrole|].
    symmetry. by apply (Hhere x n). }
  rewrite Hrest. exists self', (lines1 :: lines). simpl.
  split_and!; [done|by rewrite Hlen| | |done].
  - constructor; [|done]. rewrite Hperm. apply Hok1.
  - destruct rounds as [|round rounds].
    + simpl in Hrest. injection Hrest as <- <-. by intros l [= <-].
    + destruct lines as [|l' lines]; [done|]. exact Hlast.
Qed.
(** X13.  When every node keeps, from snapshot to snapshot, the role of its first
    classification, a run that completes prints no node twice in a round,
    prints in its last round one line for each node known at its end, and
    ends with every node in the bucket of its role. *)
Theorem run_without_role_change (role_of : node_id → role)
    (rounds : list (gmap node_id node * string))
    (self : ElasticStat) (lines : list (list row)) :
  Forall (λ round : gmap node_id node * string,
            map_Forall (λ x n, get_role (attributes n) = role_of x) round.1) rounds →
  printStats iter_order init rounds = Ok (self, lines) →
  length lines = length rounds ∧
  Forall (λ l, NoDup l.*1) lines ∧
  (∀ l, last lines = Some l → l.*1 ≡ₚ nodes_list self) ∧
  (∀ r x, x ∈ bucket self r → role_of x = r).
Proof.
  intros Hfixed Hrun.
  destruct (run_settled role_of rounds init Hfixed topology_ok_init)
    as (self0 & lines0 & Hrun0 & Hlen & Hnd & Hlast & Hrole).
  { intros r x Hx. exfalso. revert Hx. unfold bucket, init. simpl.
    rewrite lookup_empty. apply not_elem_of_nil. }
  rewrite Hrun in Hrun0. injection Hrun0 as <- <-. done.
Qed.

(** X8.  The first cycle, whatever the snapshot, when it completes: it has
    registered every node of the snapshot, and no other, under the name and
    in the bucket the snapshot gives, and has put exactly one line on the
    queue for each of them. *)
Theorem first_cycle_registers_and_prints_all (nodes_stats : gmap node_id node)
    (master : string) (self : ElasticStat) (lines : list row) :
  printStats_cycle iter_order init nodes_stats master = Ok (self, lines) →
  nodes_list self ≡ₚ elements (dom nodes_stats) ∧
  lines.*1 ≡ₚ elements (dom nodes_stats) ∧
  (∀ x n, nodes_stats !! x = Some n →
     node_names self !! x = Some (name n) ∧
     x ∈ bucket self (get_role (attributes n)) ∧
     emitted x lines = 1).
Proof.
  intros Hcycle.
  destruct (cycle_without_role_change _ iter_order_perm init nodes_stats master)
    as (self0 & lines0 & Hcycle0 & Hperm & Hone & _); [apply topology_ok_init| |].
  { intros r x n Hx. exfalso. revert Hx. unfold bucket, init. simpl.
    rewrite lookup_empty. apply not_elem_of_nil. }
  rewrite Hcycle in Hcycle0. injection Hcycle0 as <- <-.
  pose proof (topology_ok_cycle _ iter_order_perm _ _ _ _ _ topology_ok_init Hcycle)
    as Hok.
  assert (nodes_list self ≡ₚ elements (dom nodes_stats) ∧
          ∀ x n, nodes_stats !! x = Some n → node_names self !! x = Some (name n))
    as [Hlist Hnames].
  { revert Hcycle. unfold printStats_cycle. simpl.
    destruct (register_all nodes_stats
                (iter_order node_id (elements (dom nodes_stats)))
                (set_active_master master init)) as [self1|e] eqn:Hreg; simpl; [|done].
    intros (-> & -> & _)%process_roles_frame. split.
    - apply register_all_frame in Hreg as (-> & _). simpl. apply iter_order_perm.
    - intros x n Hx. eapply register_all_registers; [done| |done].
      rewrite iter_order_perm, elem_of_elements, elem_of_dom. eauto. }
  split_and!; [done|by rewrite Hperm|].
  intros x n Hx.
  assert (x ∈ nodes_list self) as Hin.
  { rewrite Hlist, elem_of_elements, elem_of_dom. eauto. }
  split_and!; [by apply Hnames| |by apply Hone].
  destruct Hok as (Hb & _). rewrite <-Hb in Hin.
  apply elem_of_all_buckets in Hin as [r Hr].
  destruct (printStats_cycle_origin _ _ _ _ _ _ r x Hcycle Hr)
    as [Hx'|(n' & Hn' & <-)].
  - exfalso. revert Hx'. unfold bucket, init. simpl.
    rewrite lookup_empty. apply not_elem_of_nil.
  - by simplify_eq.
Qed.

(** X14.  A node that was known and is missing from the snapshot, in a cycle in
    which no node changes role and that completes: the node gets one line,
    the line that reports it as gone, under the name recorded at its
    registration and with the role of its bucket in parentheses; it keeps
    its place in the bucket. *)
Theorem gone_node_reported_once (self self' : ElasticStat)
    (nodes_stats : gmap node_id node) (master : string) (lines : list row)
    (r : role) (x : node_id) :
  topology_ok self → settled self nodes_stats →
  printStats_cycle iter_order self nodes_stats master = Ok (self', lines) →
  x ∈ bucket self r → nodes_stats !! x = None →
  ∃ failed_name,
    node_names self !! x = Some failed_name ∧
    (x, NODES_FAILED_TEMPLATE failed_name ("(" +:+ role_str r +:+ ")")) ∈ lines ∧
    emitted x lines = 1 ∧
    x ∈ bucket self' r.
Proof.
  intros Hok Hsettled Hcycle Hx Hnone.
  destruct (cycle_without_role_change _ iter_order_perm self nodes_stats master)
    as (self0 & lines0 & Hcycle0 & _ & Hone & Hgone & Hkeep); [done..|].
  rewrite Hcycle in Hcycle0. injection Hcycle0 as <- <-.
  destruct (cycle_keeps_known _ _ _ _ _ Hok Hcycle) as [Hpre Hnames].
  assert (x ∈ nodes_list self) as Hin.
  { destruct Hok as (Hb & _). rewrite <-Hb. apply elem_of_all_buckets. eauto. }
  assert (is_Some (node_names self !! x)) as [nm Hnm] by by apply Hok.
  exists nm. split_and!; [done| | |by apply Hkeep].
  - destruct (Hgone r x (Hkeep _ _ Hx) Hnone) as (line & Hline & Hl).
    revert Hline. unfold failed_line. rewrite (Hnames _ _ Hnm). simpl.
    by intros [= <-].
  - apply Hone. destruct Hpre as [ids ->]. apply elem_of_app. by left.
Qed.
End more_of_the_cycle.

(** X15.  The role of a bucket is a role the cluster has reported: after any
    rounds that complete, every node of a bucket was classified under the
    role of that bucket by one of the snapshots seen, though not always by
    the last one in which it was. *)
Theorem bucket_roles_were_reported (iter_order : ∀ A : Type, list A → list A)
    (rounds : list (gmap node_id node * string))
    (self : ElasticStat) (lines : list (list row)) (r : role) (x : node_id) :
  printStats iter_order init rounds = Ok (self, lines) →
  x ∈ bucket self r →
  ∃ nodes_stats master n,
    (nodes_stats, master) ∈ rounds ∧ nodes_stats !! x = Some n ∧
    get_role (attributes n) = r.
Proof.
  assert (∀ s, printStats iter_order s rounds = Ok (self, lines) →
            x ∈ bucket self r →
            x ∈ bucket s r ∨
            ∃ nodes_stats master n,
              (nodes_stats, master) ∈ rounds ∧ nodes_stats !! x = Some n ∧
              get_role (attributes n) = r) as Hgen.
  { revert lines. induction rounds as [|[nodes_stats master] rounds IH];
      intros lines s; simpl.
    - intros [= <- <-]. auto.
    - destruct (printStats_cycle iter_order s nodes_stats master)
        as [[s1 lines1]|e] eqn:Hcycle; simpl; [|done].
      destruct (printStats iter_order s1 rounds) as [[s2 rest]|e] eqn:Hrest;
        simpl; [|done].
      intros [= <- <-] Hx.
      destruct (IH _ _ Hrest Hx) as [Hx1|(ns & m & n & Hin & Hn & Hr)].
      + destruct (printStats_cycle_origin _ _ _ _ _ _ r x Hcycle Hx1)
          as [?|(n & Hn & Hr)]; [auto|].
        right. exists nodes_stats, master, n. split; [apply list_elem_of_here|done].
      + right. exists ns, m, n. split; [by apply list_elem_of_further|done]. }
  intros Hrun Hx. destruct (Hgen init Hrun Hx) as [Hx'|?]; [|done].
  exfalso. revert Hx'. unfold bucket, init. simpl.
  rewrite lookup_empty. apply not_elem_of_nil.
Qed.

Lemma bucket_roles_were_reported_witness :
  ∃ nodes_stats master n,
    (nodes_stats, master) ∈ Example.role_change_known_bucket ∧
    nodes_stats !! "n4" = Some n ∧ get_role (attributes n) = ALL.
Proof.
  destruct (printStats Example.order init Example.role_change_known_bucket)
    as [[self lines]|e] eqn:Hrun.
  - apply (bucket_roles_were_reported Example.order _ _ _ ALL "n4" Hrun).
    vm_compute in Hrun. injection Hrun as <- _.
    match goal with |- _ ∈ ?b =>
      replace b with ["n5"; "n4"] by (vm_compute; reflexivity) end.
    apply list_elem_of_further, list_elem_of_here.
  - vm_compute in Hrun. discriminate.
Defined.

(** X16.  The body of the loop of [process_role], for a node whose role has
    changed and that the loop reaches: when the line is made the node is at
    the end of the bucket of its new role and out of the old one, and the
    label of the line is the new role (with the star of the master). *)
Theorem role_change_moves_then_prints (role : role) (nodes_stats : gmap node_id node)
    (x : node_id) (n : node) (self self' : ElasticStat) (res res' : list row) :
  nodes_stats !! x = Some n → get_role (attributes n) ≠ role →
  process_role_body role nodes_stats x self res = Ok (self', res') →
  bucket self' (get_role (attributes n)) = bucket self (get_role (attributes n)) ++ [x] ∧
  list_remove x (bucket self role) = Some (bucket self' role) ∧
  ∃ s1, bucket s1 (get_role (attributes n)) = bucket self' (get_role (attributes n)) ∧
    bucket s1 role = bucket self' role ∧
    res' = res ++ [(x, NODES_TEMPLATE (process_node_dict s1 (get_role (attributes n)) n).2)] ∧
    Processed.role (process_node_dict s1 (get_role (attributes n)) n).2 =
      if bool_decide (name n = active_master self)
      then role_str (get_role (attributes n)) +:+ "*"
      else role_str (get_role (attributes n)).
Proof. apply process_role_body_moves. Qed.

(** ** What the lines of a cycle say *)

Lemma process_role_body_shows (role : role) (nodes_stats : gmap node_id node)
    (x : node_id) (self self' : ElasticStat) (res res' : list row) :
  process_role_body role nodes_stats x self res = Ok (self', res') →
  Forall (shows (node_names self) (active_master self) nodes_stats) res →
  Forall (shows (node_names self) (active_master self) nodes_stats) res'.
Proof.
  intros Hbody Hres.
  pose proof (process_role_body_frame _ _ _ _ _ _ _ Hbody) as (_ & _ & Hm & _).
  apply process_role_body_Ok in Hbody.
  destruct (nodes_stats !! x) as [n|] eqn:Hx.
  - destruct Hbody as (s1 & _ & -> & ->).
    apply Forall_app. split; [done|]. apply Forall_singleton.
    unfold shows. simpl. rewrite Hx. exists s1. split; [|done].
    by rewrite <-Hm.
  - destruct Hbody as (nm & Hnm & -> & ->).
    apply Forall_app. split; [done|]. apply Forall_singleton.
    unfold shows. simpl. rewrite Hx. eauto.
Qed.

Lemma process_role_loop_shows (fuel i : nat) (role : role)
    (nodes_stats : gmap node_id node) (self self' : ElasticStat) (res res' : list row) :
  process_role_loop fuel i role nodes_stats self res = Ok (self', res') →
  Forall (shows (node_names self) (active_master self) nodes_stats) res →
  Forall (shows (node_names self) (active_master self) nodes_stats) res'.
Proof.
  revert i self res. induction fuel as [|fuel IH]; intros i self res; simpl.
  - by intros [= <- <-].
  - destruct (nodes_by_role self !! role ≫= (.!! i)) as [x|]; [|by intros [= <- <-]].
    destruct (process_role_body role nodes_stats x self res) as [[self1 res1]|e] eqn:Hbody;
      simpl; [|done].
    intros Hloop Hres.
    pose proof (process_role_body_frame _ _ _ _ _ _ _ Hbody) as (_ & Hn & Hm & _).
    rewrite <-Hn, <-Hm. eapply IH; [done|]. rewrite Hn, Hm.
    by eapply process_role_body_shows.
Qed.

Lemma process_roles_shows (used : nat) (roles : list role)
    (nodes_stats : gmap node_id node) (self self' : ElasticStat) (res res' : list row) :
  process_roles used roles nodes_stats self res = Ok (self', res') →
  Forall (shows (node_names self) (active_master self) nodes_stats) res →
  Forall (shows (node_names self) (active_master self) nodes_stats) res'.
Proof.
  revert self res. induction roles as [|r roles IH]; intros self res; simpl.
  - case_decide; [done|]. by intros [= <- <-].
  - case_decide; [done|].
    destruct (process_role r nodes_stats self res) as [[self1 res1]|e] eqn:Hrole;
      simpl; [|done].
    intros Hrest Hres.
    pose proof (process_role_frame _ _ _ _ _ _ Hrole) as (_ & Hn & Hm & _).
    rewrite <-Hn, <-Hm. eapply IH; [done|]. rewrite Hn, Hm.
    revert Hrole. unfold process_role.
    destruct (nodes_by_role self !! r); simpl; [|done].
    intros Hloop. by eapply process_role_loop_shows.
Qed.

Lemma register_all_master (nodes_stats : gmap node_id node) (ids : list node_id)
    (self self' : ElasticStat) :
  register_all nodes_stats ids self = Ok self' →
  active_master self' = active_master self.
Proof.
  revert self. induction ids as [|x ids IH]; intros self; simpl.
  - by intros [= <-].
  - destruct (register nodes_stats self x) as [s1|e] eqn:Hreg; simpl; [|done].
    intros ->%IH. by apply register_Ok in Hreg as (n & _ & ->).
Qed.

(** X7.  Every line of a cycle that completes says what the snapshot of that
    cycle says of its node.  The line of a node that is in the snapshot is
    made of the node's entry in this snapshot: it has the node's name of
    this snapshot, the role its attributes give now, starred exactly when
    that name is the name of the master elected now, and the data columns
    of that role.  The line of a node that is not in the snapshot is the
    line that reports it as gone, under the name recorded for it. *)
Theorem lines_show_the_snapshot (iter_order : ∀ A : Type, list A → list A)
    (self self' : ElasticStat) (nodes_stats : gmap node_id node) (master : string)
    (lines : list row) (x : node_id) (line : string) :
  printStats_cycle iter_order self nodes_stats master = Ok (self', lines) →
  (x, line) ∈ lines →
  match nodes_stats !! x with
  | Some n =>
      ∃ s, let p := (process_node_dict s (get_role (attributes n)) n).2 in
        line = NODES_TEMPLATE p ∧
        Processed.name p = name n ∧
        Processed.role p =
          (if bool_decide (name n = master)
           then role_str (get_role (attributes n)) +:+ "*"
           else role_str (get_role (attributes n))) ∧
        (get_role (attributes n) = DATA ∨ get_role (attributes n) = ALL →
         Processed.merge_time p = indices_merges_total_time n ∧
         Processed.store_throttle p = indices_store_throttle_time n) ∧
        (get_role (attributes n) ≠ DATA → get_role (attributes n) ≠ ALL →
         Processed.merge_time p = "-" ∧ Processed.store_throttle p = "-" ∧
         Processed.docs p = "-|-")
  | None =>
      ∃ failed_name role, node_names self' !! x = Some failed_name ∧
        line = NODES_FAILED_TEMPLATE failed_name ("(" +:+ role_str role +:+ ")")
  end.
Proof.
  intros Hcycle Hline.
  assert (shows (node_names self') master nodes_stats (x, line)) as Hshows.
  { revert Hcycle. unfold printStats_cycle.
    match goal with |- rbind ?m _ = _ → _ => destruct m as [self1|e] eqn:Hreg end;
      simpl; [|done].
    intros Hroles.
    assert (active_master self1 = master) as Hm.
    { revert Hreg. case_decide.
      - by intros ->%register_all_master.
      - case_decide; [|by intros [= <-]]. by intros ->%register_all_master. }
    pose proof (process_roles_frame _ _ _ _ _ _ _ Hroles) as (_ & Hn & _).
    apply process_roles_shows in Hroles; [|by apply Forall_nil].
    rewrite Hn, <-Hm. revert Hline. by apply Forall_forall. }
  revert Hshows. unfold shows. simpl. destruct (nodes_stats !! x) as [n|]; [|done].
  intros (s & Hm & ->). exists s. cbv zeta.
  rewrite process_node_line, process_node_dict_fields. simpl. rewrite Hm.
  split_and!; [done..| |].
  - by intros [-> | ->].
  - intros ??. by destruct (get_role (attributes n)).
Qed.

Lemma lines_show_the_snapshot_witness :
  ∃ self' lines line,
    printStats_cycle Example.order Sample.tracked Sample.a_changed "gamma"
      = Ok (self', lines) ∧
    ("a", line) ∈ lines ∧
    ∃ s, Processed.role
           (process_node_dict s ALL (Example.a_node "alpha" Example.attrs_all 5)).2
         = "ALL".
Proof.
  destruct (printStats_cycle Example.order Sample.tracked Sample.a_changed "gamma")
    as [[self' lines]|e] eqn:Hcycle; [|vm_compute in Hcycle; discriminate].
  assert (∃ line, lines !! 0 = Some ("a", line)) as [line Hline].
  { vm_compute in Hcycle. injection Hcycle as _ <-. eexists. reflexivity. }
  exists self', lines, line. split; [reflexivity|].
  apply list_elem_of_lookup_2 in Hline. split; [exact Hline|].
  pose proof (lines_show_the_snapshot Example.order Sample.tracked self'
                Sample.a_changed "gamma" lines "a" line Hcycle Hline) as Hshow.
  replace (Sample.a_changed !! "a")
    with (Some (Example.a_node "alpha" Example.attrs_all 5)) in Hshow
    by (vm_compute; reflexivity).
  destruct Hshow as (s & _ & _ & Hrole & _). exists s. exact Hrole.
Defined.

(** ** The constructor and the command line *)

Lemma split_not_nil (c : ascii) (s : string) : split c s ≠ [].
Proof.
  induction s as [|a s IH]; simpl; [done|].
  case_bool_decide; [done|]. by destruct (split c s).
Qed.

Lemma join_cons (sep w : string) (ws : list string) :
  ws ≠ [] → join sep (w :: ws) = w +:+ sep +:+ join sep ws.
Proof. by destruct ws. Qed.

Lemma split_join (c : ascii) (s : string) : join (String c "") (split c s) = s.
Proof.
  induction s as [|a s IH]; [done|]. simpl.
  pose proof (split_not_nil c s) as Hne. case_bool_decide as Ha.
  - subst a. rewrite join_cons by done. by rewrite IH.
  - destruct (split c s) as [|w ws]; [done|].
    destruct ws as [|w' ws].
    + simpl in *. by rewrite IH.
    + rewrite join_cons by done. rewrite join_cons in IH by done.
      change (String a w +:+ String c "" +:+ join (String c "") (w' :: ws))
        with (String a (w +:+ String c "" +:+ join (String c "") (w' :: ws))).
      by rewrite IH.
Qed.

Lemma split_length (c : ascii) (s : string) :
  length (split c s) = S (count_char c s).
Proof.
  induction s as [|a s IH]; [done|]. simpl.
  case_bool_decide; simpl; [by rewrite IH|].
  pose proof (split_not_nil c s). by destruct (split c s).
Qed.

Lemma contains_count_char (c : ascii) (s : string) :
  contains c s = bool_decide (0 < count_char c s).
Proof.
  induction s as [|a s IH]; [done|]. simpl. rewrite IH.
  by destruct (bool_decide (a = c)).
Qed.

(** What [':' in host] and [host.split(':')] make of a host, by the number
    of its colons. *)
Lemma host_port_cases (host : string) :
  (count_char ":" host = 0 ∧ contains ":" host = false) ∨
  (count_char ":" host = 1 ∧ contains ":" host = true ∧
   ∃ h p, split ":" host = [h; p] ∧ host = h +:+ ":" +:+ p) ∨
  (2 ≤ count_char ":" host ∧ contains ":" host = true ∧
   ∃ h p q l, split ":" host = h :: p :: q :: l).
Proof.
  pose proof (split_length ":" host) as Hlen.
  pose proof (split_join ":" host) as Hjoin.
  rewrite contains_count_char.
  destruct (count_char ":" host) as [|[|k]].
  - left. done.
  - right. left. split_and!; [done..|].
    destruct (split ":" host) as [|h [|p [|q l]]]; try done.
    exists h, p. by rewrite <-Hjoin.
  - right. right. split_and!; [lia|done|].
    destruct (split ":" host) as [|h [|p [|q l]]]; try done. eauto.
Qed.

Lemma auth_cases (username : pyval) :
  bool_decide (username ≠ PNone) = negb (bool_decide (username = PNone)).
Proof. by repeat case_bool_decide. Qed.

(** X1.  The constructor reads the port off the host when the host holds one
    colon, whatever port it is given; it sends credentials exactly when the
    user name is not [None]; and it raises [ValueError] exactly when the host
    holds two colons or more. *)
Theorem init_reads_port_off_host (host : string)
    (port username password check_interval local_time' : pyval) :
  match __init__ host port username password check_interval local_time' with
  | Ok c =>
      engine c = init ∧
      HostDict.http_auth (es_client c) =
        (if bool_decide (username = PNone) then None else Some (username, password)) ∧
      ((count_char ":" host = 0 ∧
        HostDict.host (es_client c) = host ∧ HostDict.port (es_client c) = port) ∨
       (count_char ":" host = 1 ∧
        ∃ p, HostDict.port (es_client c) = PStr p ∧
             host = HostDict.host (es_client c) +:+ ":" +:+ p ∧
             count_char ":" (HostDict.host (es_client c)) = 0 ∧ count_char ":" p = 0))
  | Raise e => e = ValueError ∧ 2 ≤ count_char ":" host
  end.
Proof.
  unfold __init__. rewrite (auth_cases username).
  destruct (host_port_cases host)
    as [[Hn ->]|[(Hn & -> & h & p & -> & Hhost)|(Hn & -> & h & p & q & l & ->)]]; simpl.
  - split_and!; [done| |left]; by destruct (bool_decide (username = PNone)).
  - split_and!; [done| |right].
    { by destruct (bool_decide (username = PNone)). }
    split; [done|]. exists p.
    assert (count_char ":" h = 0 ∧ count_char ":" p = 0) as [??].
    { assert (∀ a b, count_char ":" (a +:+ b) = count_char ":" a + count_char ":" b)
        as Happ.
      { intros a b. induction a as [|x a IH]; [done|].
        change (String x a +:+ b) with (String x (a +:+ b)). simpl. rewrite IH. lia. }
      rewrite Hhost, !Happ in Hn. simpl in Hn. lia. }
    by destruct (bool_decide (username = PNone)).
  - done.
Qed.

(** X2.  [main] hands its five arguments over by position to a constructor that
    takes the port second.  So the option [--port] reaches nothing; [main]
    ends in [ValueError] exactly when the host holds two colons or more;
    without a colon in the host the port of the client is the user name (or
    [None]), and with one colon it is read off the host; credentials are
    sent exactly when a password is given, with the password as user name
    and the check interval as password; and the check interval kept on the
    object is the local-time flag. *)
Theorem main_shifts_its_arguments (args : Args.t) :
  (∀ port,
     main {| Args.hostlist := Args.hostlist args; Args.port := port;
             Args.username := Args.username args;
             Args.password := Args.password args;
             Args.check_interval := Args.check_interval args;
             Args.local_time := Args.local_time args |} = main args) ∧
  (main args = Raise ValueError ↔ 2 ≤ count_char ":" (Args.hostlist args)) ∧
  match main args with
  | Ok c =>
      engine c = init ∧
      sleep_interval c = PBool (Args.local_time args) ∧
      local_time c = PBool false ∧
      HostDict.http_auth (es_client c) =
        match Args.password args with
        | Some pw => Some (PStr pw, PInt (Args.check_interval args))
        | None => None
        end ∧
      ((count_char ":" (Args.hostlist args) = 0 ∧
        HostDict.host (es_client c) = Args.hostlist args ∧
        HostDict.port (es_client c) = optional (Args.username args)) ∨
       (count_char ":" (Args.hostlist args) = 1 ∧
        ∃ p, HostDict.port (es_client c) = PStr p ∧
             Args.hostlist args = HostDict.host (es_client c) +:+ ":" +:+ p))
  | Raise e => e = ValueError ∧ 2 ≤ count_char ":" (Args.hostlist args)
  end.
Proof.
  split; [done|]. unfold main, __init__. rewrite auth_cases.
  destruct (host_port_cases (Args.hostlist args))
    as [[Hn ->]|[(Hn & -> & h & p & -> & Hhost)|(Hn & -> & h & p & q & l & ->)]]; simpl.
  - split; [split; [done|lia]|].
    destruct (Args.password args); simpl; split_and!; try done; by left.
  - split; [split; [done|lia]|].
    destruct (Args.password args); simpl; split_and!; try done; right; eauto.
  - done.
Qed.

(** ** Nodes of different names *)

Lemma process_node_line_ext (self other : ElasticStat) (r : role) (n : node) :
  node_counters_gc other !! name n = node_counters_gc self !! name n →
  node_counters_fd other !! name n = node_counters_fd self !! name n →
  node_counters_hconn other !! name n = node_counters_hconn self !! name n →
  active_master other = active_master self →
  (process_node other r n).2 = (process_node self r n).2.
Proof.
  intros Hgc Hfd Hh Hmaster.
  rewrite !process_node_line, !process_node_dict_fields.
  by rewrite (get_gc_stats_result_ext _ _ _ _ Hgc),
    (get_fd_stats_result_ext _ _ _ _ _ Hfd),
    (get_http_conns_result_ext _ _ _ _ Hh), Hmaster.
Qed.

(** X5.  Two nodes of different names do not interfere: processed in either
    order they get the same two lines and leave the same state. *)
Theorem process_node_commute (self : ElasticStat) (r1 r2 : role) (n1 n2 : node) :
  name n1 ≠ name n2 →
  let first := process_node self r1 n1 in
  let second := process_node first.1 r2 n2 in
  let first' := process_node self r2 n2 in
  let second' := process_node first'.1 r1 n1 in
  second.1 = second'.1 ∧ first.2 = second'.2 ∧ second.2 = first'.2.
Proof.
  intros Hne. cbv zeta. rewrite !process_node_state. split_and!.
  - unfold counted, set_hconn, set_fd, set_gc. simpl.
    f_equal; by apply insert_insert_ne.
  - symmetry. apply process_node_line_ext; unfold counted; simpl;
      by rewrite ?lookup_insert_ne.
  - apply process_node_line_ext; unfold counted; simpl;
      by rewrite ?lookup_insert_ne.
Qed.

Lemma process_node_commute_witness :
  let n1 := Example.a_node "alpha" Example.attrs_data 5 in
  let n2 := Example.a_node "beta" Example.attrs_all 7 in
  (process_node (process_node init DATA n1).1 ALL n2).1 =
  (process_node (process_node init ALL n2).1 DATA n1).1.
Proof.
  cbv zeta.
  apply (process_node_commute init DATA ALL
           (Example.a_node "alpha" Example.attrs_data 5)
           (Example.a_node "beta" Example.attrs_all 7)).
  by vm_compute.
Defined.

(** ** The role column *)

(** X6.  The label of the role column fits its six characters in every line:
    the role of a node with or without the star of the master, and the role
    in parentheses of a node that has left.  So in a line for a node that
    has left the text after the role starts at the same column for every
    role, as long as the name fits its own column. *)
Theorem role_label_fits_its_column (self : ElasticStat) (r : role) (n : node)
    (failed_name : string) :
  String.length (Processed.role (process_node_dict self r n).2) ≤ 6 ∧
  String.length ("(" +:+ role_str r +:+ ")") ≤ 6 ∧
  String.length (NODES_FAILED_TEMPLATE failed_name ("(" +:+ role_str r +:+ ")")) =
    String.length failed_name `max` 24 + 54.
Proof.
  rewrite process_node_dict_fields. simpl. split_and!.
  - case_bool_decide; destruct r; simpl; lia.
  - destruct r; simpl; lia.
  - unfold NODES_FAILED_TEMPLATE, ljust. rewrite !string_length_app.
    assert (∀ k, String.length (spaces k) = k) as Hsp.
    { induction k as [|k IH]; [done|]. simpl. by rewrite string_length_app, IH. }
    rewrite !Hsp. destruct r; simpl; lia.
Qed.

(** ** The theorems above on the sample runs *)

Lemma order_perm : ∀ (A : Type) (l : list A), Example.order A l ≡ₚ l.
Proof. done. Qed.

Lemma after_topology_ok (rounds : list (gmap node_id node * string)) :
  topology_ok (Sample.after rounds).
Proof.
  unfold Sample.after.
  destruct (printStats Example.order init rounds) as [[self lines]|e] eqn:Hrun.
  - by eapply topology_ok_printStats; [apply order_perm|apply topology_ok_init|].
  - apply topology_ok_init.
Qed.

Lemma lines_only_for_known_nodes_witness :
  ∃ self' lines,
    printStats_cycle Example.order Sample.two_known Sample.b_joins "gamma"
      = Ok (self', lines) ∧
    lines !! 1 = Some ("b", Example.a_line "beta" "DATA" "-|-" "-|-" "-|-" "3|-") ∧
    "b" ∈ nodes_list self' ∧ is_Some (node_names self' !! "b").
Proof.
  destruct (printStats_cycle Example.order Sample.two_known Sample.b_joins "gamma")
    as [[self' lines]|e] eqn:Hcycle; [|vm_compute in Hcycle; discriminate].
  exists self', lines. split; [reflexivity|].
  assert (lines !! 1 = Some ("b", Example.a_line "beta" "DATA" "-|-" "-|-" "-|-" "3|-"))
    as Hline.
  { vm_compute in Hcycle. by injection Hcycle as _ <-. }
  split; [done|].
  apply (lines_only_for_known_nodes Example.order order_perm Sample.two_known self'
           Sample.b_joins "gamma" lines "b"
           (Example.a_line "beta" "DATA" "-|-" "-|-" "-|-" "3|-")).
  - apply after_topology_ok.
  - done.
  - by eapply list_elem_of_lookup_2.
Defined.

Lemma known_nodes_never_forgotten_witness :
  ∃ self' lines,
    printStats Example.order Sample.two_known (drop 1 Example.role_change_before_absent)
      = Ok (self', lines) ∧
    nodes_list Sample.two_known `prefix_of` nodes_list self' ∧
    node_names self' !! "a" = Some "alpha".
Proof.
  destruct (printStats Example.order Sample.two_known
              (drop 1 Example.role_change_before_absent))
    as [[self' lines]|e] eqn:Hrun; [|vm_compute in Hrun; discriminate].
  exists self', lines. split; [reflexivity|].
  destruct (known_nodes_never_forgotten Example.order order_perm _ _ _ _
              (after_topology_ok _) Hrun) as (Hpre & Hnames & _).
  split; [exact Hpre|]. apply Hnames. by vm_compute.
Defined.

Lemma run_without_role_change_witness :
  ∃ self lines,
    printStats Example.order init Example.leave_and_return = Ok (self, lines) ∧
    length lines = 3 ∧ Forall (λ l, NoDup l.*1) lines.
Proof.
  destruct (printStats Example.order init Example.leave_and_return)
    as [[self lines]|e] eqn:Hrun; [|vm_compute in Hrun; discriminate].
  exists self, lines. split; [reflexivity|].
  destruct (run_without_role_change Example.order order_perm (λ _, DATA)
              Example.leave_and_return self lines)
    as (Hlen & Hnd & _).
  - apply (bool_decide_unpack _). by vm_compute.
  - exact Hrun.
  - split; [exact Hlen|exact Hnd].
Defined.

Lemma first_cycle_registers_and_prints_all_witness :
  ∃ self lines,
    printStats_cycle Example.order init Sample.b_joins "gamma" = Ok (self, lines) ∧
    nodes_list self ≡ₚ elements (dom Sample.b_joins) ∧
    lines.*1 ≡ₚ elements (dom Sample.b_joins).
Proof.
  destruct (printStats_cycle Example.order init Sample.b_joins "gamma")
    as [[self lines]|e] eqn:Hcycle; [|vm_compute in Hcycle; discriminate].
  exists self, lines. split; [reflexivity|].
  destruct (first_cycle_registers_and_prints_all Example.order order_perm
              Sample.b_joins "gamma" self lines Hcycle) as (Hl & Hlines & _).
  split; [exact Hl|exact Hlines].
Defined.

Lemma role_change_moves_then_prints_witness :
  ∃ self' res',
    process_role_body DATA Sample.a_changed "a" Sample.tracked [] = Ok (self', res') ∧
    bucket self' ALL = ["c"; "a"] ∧ bucket self' DATA = ["b"].
Proof.
  destruct (process_role_body DATA Sample.a_changed "a" Sample.tracked [])
    as [[self' res']|e] eqn:Hbody; [|vm_compute in Hbody; discriminate].
  exists self', res'. split; [reflexivity|].
  destruct (role_change_moves_then_prints DATA Sample.a_changed "a"
              (Example.a_node "alpha" Example.attrs_all 5) Sample.tracked self' [] res')
    as (Hnew & Hold & _).
  - by vm_compute.
  - by vm_compute.
  - exact Hbody.
  - split.
    + etrans; [exact Hnew|by vm_compute].
    + vm_compute in Hold. vm_compute. by injection Hold.
Defined.

Lemma cycle_without_registration_witness :
  ∃ self' lines,
    printStats_cycle Example.order Sample.tracked Sample.a_changed "gamma"
      = Ok (self', lines) ∧
    nodes_list self' = nodes_list Sample.tracked ∧
    node_names self' = node_names Sample.tracked.
Proof.
  destruct (printStats_cycle Example.order Sample.tracked Sample.a_changed "gamma")
    as [[self' lines]|e] eqn:Hcycle; [|vm_compute in Hcycle; discriminate].
  exists self', lines. split; [reflexivity|].
  destruct (cycle_without_registration Example.order Sample.tracked self'
              Sample.a_changed "gamma" lines) as (Hl & Hn & _).
  - by vm_compute.
  - vm_compute. lia.
  - exact Hcycle.
  - exact (conj Hl Hn).
Defined.

Lemma cycle_with_registration_witness :
  ∃ self' lines,
    printStats_cycle Example.order Sample.two_known Sample.b_joins "gamma"
      = Ok (self', lines) ∧
    "b" ∈ nodes_list self' ∧ node_names self' !! "b" = Some "beta" ∧
    occurrences self' "b" = 1.
Proof.
  destruct (printStats_cycle Example.order Sample.two_known Sample.b_joins "gamma")
    as [[self' lines]|e] eqn:Hcycle; [|vm_compute in Hcycle; discriminate].
  exists self', lines. split; [reflexivity|].
  apply (cycle_with_registration Example.order order_perm Sample.two_known self'
           Sample.b_joins "gamma" lines "b"
           (Example.a_node "beta" Example.attrs_data 5)).
  - apply after_topology_ok.
  - vm_compute. lia.
  - exact Hcycle.
  - by vm_compute.
  - apply (bool_decide_unpack _). by vm_compute.
Defined.

Lemma process_role_skips_next_witness :
  ∃ self' res',
    process_role DATA Sample.a_changed Sample.tracked [] = Ok (self', res') ∧
    emitted "b" res' = emitted "b" [] ∧ "b" ∈ bucket self' DATA.
Proof.
  destruct (process_role DATA Sample.a_changed Sample.tracked [])
    as [[self' res']|e] eqn:Hpass; [|vm_compute in Hpass; discriminate].
  exists self', res'. split; [reflexivity|].
  apply (process_role_skips_next DATA Sample.a_changed Sample.tracked self' [] res'
           "a" "b" (Example.a_node "alpha" Example.attrs_all 5) []).
  - by vm_compute.
  - done.
  - apply not_elem_of_nil.
  - by vm_compute.
  - by vm_compute.
  - exact Hpass.
Defined.

Lemma process_roles_new_bucket_raises_witness :
  ∃ e, process_roles (size (nodes_by_role Sample.lone)) [DATA]
         Sample.lone_changed Sample.lone [] = Raise e.
Proof.
  apply (process_roles_new_bucket_raises [] DATA Sample.lone_changed Sample.lone []
           "n4" (Example.a_node "four" Example.attrs_all 7) []).
  - by vm_compute.
  - by vm_compute.
  - by vm_compute.
  - by vm_compute.
Defined.

Lemma gone_node_reported_once_witness :
  ∃ self' lines,
    printStats_cycle Example.order Sample.one_two Sample.two_away "one"
      = Ok (self', lines) ∧
    ("n2", NODES_FAILED_TEMPLATE "two" "(DATA)") ∈ lines ∧ emitted "n2" lines = 1.
Proof.
  destruct (printStats_cycle Example.order Sample.one_two Sample.two_away "one")
    as [[self' lines]|e] eqn:Hcycle; [|vm_compute in Hcycle; discriminate].
  exists self', lines. split; [reflexivity|].
  destruct (gone_node_reported_once Example.order order_perm Sample.one_two self'
              Sample.two_away "one" lines DATA "n2")
    as (nm & Hnm & Hline & Hone & _).
  - apply after_topology_ok.
  - intros r x n Hx Hn.
    change Sample.two_away
      with ({[ "n1" := Example.a_node "one" Example.attrs_data 7 ]} : gmap node_id node)
      in Hn.
    apply lookup_singleton_Some in Hn as [<- <-].
    destruct r; try reflexivity; exfalso; revert Hx;
      match goal with |- _ ∈ ?b → _ =>
        replace b with (@nil node_id) by (vm_compute; reflexivity) end;
      apply not_elem_of_nil.
  - exact Hcycle.
  - replace (bucket Sample.one_two DATA) with ["n1"; "n2"]
      by (vm_compute; reflexivity).
    apply list_elem_of_further, list_elem_of_here.
  - by vm_compute.
  - replace nm with "two" in Hline; [split; [exact Hline|exact Hone]|].
    vm_compute in Hnm. by injection Hnm.
Defined.
